(** * litestar/cli/commands/core.py: the [run] command

    A shallow embedding of the server launch path of the Litestar CLI:
    [_server_lifespan], [_convert_uvicorn_args],
    [_run_uvicorn_in_subprocess] and [run_command].

    Python objects are modelled by the values the code can observe:
    [None]-able attributes are [option]s, the insertion ordered [dict] is an
    association list with in-place update, the process environment is a
    finite map, and every call that leaves the module (console, uvicorn,
    subprocess, the TLS helpers, the lifespan managers of the application)
    is an entry of a chronological trace. *)

From stdpp Require Import gmap strings list pretty sorting.

Open Scope string_scope.
Open Scope Z_scope.
Open Scope list_scope.

(** ** Python values that reach the argument marshaller *)

Module Py.

(** The values that [run_command] stores in the uvicorn option mapping:
    [None], [bool], [int] and [str]. *)
Inductive atom : Type :=
| ANone
| ABool (b : bool)
| AInt (n : Z)
| AStr (s : string).

(** A mapping value is an atom or a tuple of atoms. *)
Inductive value : Type :=
| VAtom (a : atom)
| VTuple (items : list atom).

(** [str(x)], as used by f-string interpolation [{x}]. *)
Definition str (a : atom) : string :=
  match a with
  | ANone => "None"
  | ABool true => "True"
  | ABool false => "False"
  | AInt n => pretty n
  | AStr s => s
  end.

(** [x] of type [str | None], [int | None], ... as a Python value. *)
Definition of_opt_str (x : option string) : value :=
  match x with Some s => VAtom (AStr s) | None => VAtom ANone end.

Definition of_opt_int (x : option Z) : value :=
  match x with Some n => VAtom (AInt n) | None => VAtom ANone end.

Definition of_opt_bool (x : option bool) : value :=
  match x with Some b => VAtom (ABool b) | None => VAtom ANone end.

Definition of_opt_tuple (x : option (list string)) : value :=
  match x with Some l => VTuple (map AStr l) | None => VAtom ANone end.

(** Truth value testing, the protocol behind [or], [if x:] and [bool(x)]. *)
Class Truthy (A : Type) := truthy : A -> bool.

#[export] Instance truthy_bool : Truthy bool := fun b => b.
#[export] Instance truthy_int : Truthy Z := fun n => negb (Z.eqb n 0).
#[export] Instance truthy_str : Truthy string :=
  fun s => match s with EmptyString => false | String _ _ => true end.
#[export] Instance truthy_tuple {A} : Truthy (list A) :=
  fun l => match l with [] => false | _ :: _ => true end.
(** [None] is false; any other object answers for itself. *)
#[export] Instance truthy_option {A} `{Truthy A} : Truthy (option A) :=
  fun o => match o with Some a => truthy a | None => false end.

(** [x or y] evaluates to [x] when [x] is true and to [y] otherwise. *)
Definition or_ {A} `{Truthy A} (x y : A) : A := if truthy x then x else y.

(** [x if x is not None else y]. *)
Definition if_not_none {A} (x y : option A) : option A :=
  match x with Some _ => x | None => y end.

(** An insertion ordered [dict] with [str] keys. *)
Definition dict (V : Type) : Type := list (string * V).

(** [d[k] = v]: an existing key keeps its position, a new key goes last. *)
Fixpoint setitem {V} (k : string) (v : V) (d : dict V) : dict V :=
  match d with
  | [] => [(k, v)]
  | (k', v') :: d' =>
      if String.eqb k' k then (k, v) :: d' else (k', v') :: setitem k v d'
  end.

(** A dict display [{k1: v1, ..., kn: vn}] inserts its items left to right. *)
Definition display {V} (items : list (string * V)) : dict V :=
  fold_left (fun d kv => setitem (fst kv) (snd kv) d) items [].

Definition keys {V} (d : dict V) : list string := map fst d.

End Py.

Import Py.

(** ** The argument marshaller *)

(** The body of the loop of [_convert_uvicorn_args]: the tokens appended to
    [process_args] for one item of the mapping. *)
Definition convert_item (arg : string) (v : value) : list string :=
  match v with
  | VAtom (ABool b) => if b then ["--" +:+ arg] else []
  | VTuple items => map (fun item => "--" +:+ arg +:+ "=" +:+ str item) items
  | VAtom a => ["--" +:+ arg +:+ "=" +:+ str a]
  end.

Definition _convert_uvicorn_args (args : dict value) : list string :=
  fold_left (fun process_args kv => process_args ++ convert_item (fst kv) (snd kv))
            args [].

(** The marshalling rules in the words of the specification. *)
Inductive marshals (name : string) : value -> list string -> Prop :=
| marshal_false : marshals name (VAtom (ABool false)) []
| marshal_true : marshals name (VAtom (ABool true)) ["--" +:+ name]
| marshal_tuple items :
    marshals name (VTuple items)
             (map (fun item => "--" +:+ name +:+ "=" +:+ str item) items)
| marshal_scalar a :
    (forall b, a <> ABool b) ->
    marshals name (VAtom a) ["--" +:+ name +:+ "=" +:+ str a].

(** The marshalling of a whole mapping: the tokens of each item, in order. *)
Inductive marshals_all : dict value -> list string -> Prop :=
| marshals_nil : marshals_all [] []
| marshals_cons name v toks rest toks' :
    marshals name v toks ->
    marshals_all rest toks' ->
    marshals_all ((name, v) :: rest) (toks ++ toks').

(** ** Exceptions and context managers *)

Inductive exn : Type :=
| SystemExit (code : Z)
| CalledProcessError (returncode : Z) (cmd : list string)
| ConfigurationError (msg : string)
| RuntimeError (msg : string)
| TypeError (msg : string)
| StopIteration
| Exception (name : string).

(** The outcome of a call: it returns a value or raises. *)
Inductive result (A : Type) : Type :=
| Return (a : A)
| Raise (e : exn).
Arguments Return {A} a.
Arguments Raise {A} e.

(** What [__exit__] does with the exception details: it returns an object whose truth
    value asks to swallow the exception, or it raises. *)
Inductive exit_outcome : Type :=
| ExitReturn (suppress : bool)
| ExitRaise (e : exn).

(** An object with the context manager protocol.  [__enter__] returns
    ([None]) or raises; [__exit__] is given the exception in flight. *)
Record context_manager : Type := {
  __enter__ : option exn;
  __exit__ : option exn -> exit_outcome
}.

Module App.
(** The attributes of the application that [run_command] writes. *)
Record attrs : Type := {
  debug : bool;
  pdb_on_exception : bool
}.

(** What calling an entry of [_server_lifespan_managers] with the
    application gives: an exception, or an object that may or may not
    have the context manager protocol. *)
Inductive produced : Type :=
| Raises (e : exn)
| Gives (o : option context_manager).

(** An entry of [app._server_lifespan_managers]: an instance of
    [AbstractContextManager], or anything else, which is then called with
    the application. *)
Inductive manager : Type :=
| Prepared (cm : context_manager)
| Factory (call : attrs -> produced).

Record Litestar : Type := {
  state : attrs;
  _server_lifespan_managers : list manager
}.

Definition set_debug (app : Litestar) : Litestar :=
  {| state := {| debug := true; pdb_on_exception := pdb_on_exception (state app) |};
     _server_lifespan_managers := _server_lifespan_managers app |}.

Definition set_pdb_on_exception (app : Litestar) : Litestar :=
  {| state := {| debug := debug (state app); pdb_on_exception := true |};
     _server_lifespan_managers := _server_lifespan_managers app |}.
End App.

Module Env.
(** Modelled from the spec: the declaration of [LitestarEnv] lives in
    [litestar.cli._utils], outside this file.  These are the attributes
    [run_command] reads from the "resolved application context object",
    each typed as the annotation of the parameter of
    [_run_uvicorn_in_subprocess] it flows into. *)
Record LitestarEnv : Type := {
  app_path : string;
  app : App.Litestar;
  host : option string;
  port : option Z;
  fd : option Z;
  uds : option string;
  reload : option bool;
  reload_dirs : option (list string);
  web_concurrency : option Z;
  is_app_factory : bool;
  certfile_path : option string;
  keyfile_path : option string;
  create_self_signed_cert : bool
}.

Definition with_app (env : LitestarEnv) (a : App.Litestar) : LitestarEnv :=
  {| app_path := app_path env; app := a; host := host env; port := port env;
     fd := fd env; uds := uds env; reload := reload env;
     reload_dirs := reload_dirs env; web_concurrency := web_concurrency env;
     is_app_factory := is_app_factory env; certfile_path := certfile_path env;
     keyfile_path := keyfile_path env;
     create_self_signed_cert := create_self_signed_cert env |}.
End Env.

Module Cli.
(** The parameters click passes to [run_command], defaults filled in. *)
Record options : Type := {
  reload : bool;
  port : Z;
  wc : Z;
  host : string;
  fd : option Z;
  uds : option string;
  debug : bool;
  reload_dir : list string;
  pdb : bool;
  ssl_certfile : option string;
  ssl_keyfile : option string;
  create_self_signed_cert : bool
}.
End Cli.

(** [ctx.obj]: a callable that loads the environment, or the environment. *)
Inductive ctx_obj : Type :=
| Callable (call : gmap string string -> result Env.LitestarEnv)
| Resolved (env : Env.LitestarEnv).

(** The keyword arguments of [uvicorn.run]. *)
Record uvicorn_kwargs : Type := {
  kw_app : string;
  kw_host : option string;
  kw_port : option Z;
  kw_fd : option Z;
  kw_uds : option string;
  kw_factory : bool;
  kw_ssl_certfile : option string;
  kw_ssl_keyfile : option string
}.

(** ** The world: process environment, click context, trace of calls *)

Inductive event : Type :=
| EvPrint (msg : string)
| EvRule (title : string)
| EvShowAppInfo
| EvCtxObjCall
| EvValidateSsl (certfile keyfile : option string)
| EvCreateSsl (certfile keyfile : option string) (host : option string)
| EvManagerCall (i : nat)
| EvEnter (i : nat)
| EvExit (i : nat) (exc : option exn)
| EvUvicornRun (kwargs : uvicorn_kwargs)
| EvSubprocessRun (argv : list string).

Record world : Type := {
  environ : gmap string string;
  obj : ctx_obj;
  trace : list event
}.

(** What the module imports and calls but does not define. *)
Record runtime : Type := {
  UVICORN_INSTALLED : bool;
  sys_executable : string;
  (** [sys.gettrace() is not None] *)
  tracing : bool;
  validate_ssl_file_paths :
    option string -> option string -> result (option string * option string);
  create_ssl_files :
    option string -> option string -> option string ->
    result (option string * option string);
  (** [uvicorn.run] with these keyword arguments returns when the server stops, or raises. *)
  uvicorn_run : uvicorn_kwargs -> option exn;
  (** The exit status of the child running [argv] in the environment. *)
  child_returncode : list string -> gmap string string -> Z
}.

(** State passing; a computation that can raise returns a [result]. *)
Definition M (A : Type) : Type := world -> A * world.

Definition ret {A} (a : A) : M A := fun w => (a, w).

Definition bind {A B} (c : M A) (k : A -> M B) : M B :=
  fun w => let (a, w') := c w in k a w'.

Definition try_ {A B} (c : M (result A)) (k : A -> M (result B)) : M (result B) :=
  bind c (fun r => match r with Return a => k a | Raise e => ret (Raise e) end).

Declare Scope py_scope.
Delimit Scope py_scope with py.
Notation "x <- c ;; k" := (bind c (fun x => k))
  (at level 100, c at next level, right associativity) : py_scope.
Notation "c ;; k" := (bind c (fun _ => k))
  (at level 100, right associativity) : py_scope.
Notation "x <-! c ;; k" := (try_ c (fun x => k))
  (at level 100, c at next level, right associativity) : py_scope.
Notation "c ;;! k" := (try_ c (fun _ => k))
  (at level 100, right associativity) : py_scope.
Open Scope py_scope.

Definition emit (e : event) : M unit :=
  fun w => (tt, {| environ := environ w; obj := obj w; trace := trace w ++ [e] |}).

Definition setenv (k v : string) : M unit :=
  fun w => (tt, {| environ := <[k := v]> (environ w); obj := obj w; trace := trace w |}).

Definition get_obj : M ctx_obj := fun w => (obj w, w).

Definition set_obj (o : ctx_obj) : M unit :=
  fun w => (tt, {| environ := environ w; obj := o; trace := trace w |}).

Definition get_environ : M (gmap string string) := fun w => (environ w, w).

Definition when (b : bool) (c : M unit) : M unit := if b then c else ret tt.

Definition of_exc (exc : option exn) : result unit :=
  match exc with Some e => Raise e | None => Return tt end.

Definition exc_of {A} (r : result A) : option exn :=
  match r with Return _ => None | Raise e => Some e end.

(** ** [contextlib.ExitStack] *)

(** The exit callbacks of an [ExitStack], last registered first.  Each one
    remembers the position of its manager in [_server_lifespan_managers]. *)
Definition exit_callbacks : Type := list (nat * context_manager).

(** [exit_stack.enter_context(cm)]: the protocol is looked up (an object
    without it is refused, with a [TypeError] since Python 3.11), [__enter__]
    is called, and only when it has returned is [__exit__] registered. *)
Definition enter_context (i : nat) (o : option context_manager)
    (cbs : exit_callbacks) : M (result exit_callbacks) :=
  match o with
  | None =>
      ret (Raise (TypeError "object does not support the context manager protocol"))
  | Some cm =>
      emit (EvEnter i) ;;
      ret (match __enter__ cm with
           | Some e => Raise e
           | None => Return ((i, cm) :: cbs)
           end)
  end.

(** The local variables of [ExitStack.__exit__]. *)
Record exit_locals : Type := {
  received_exc : bool;
  suppressed_exc : bool;
  pending_raise : bool;
  exc_details : option exn
}.

(** The [while self._exit_callbacks:] loop of [ExitStack.__exit__]: every
    callback is popped and called with the current exception details. *)
Fixpoint exit_loop (cbs : exit_callbacks) (l : exit_locals) : M exit_locals :=
  match cbs with
  | [] => ret l
  | (i, cm) :: cbs' =>
      emit (EvExit i (exc_details l)) ;;
      match __exit__ cm (exc_details l) with
      | ExitReturn true =>
          exit_loop cbs' {| received_exc := received_exc l; suppressed_exc := true;
                            pending_raise := false; exc_details := None |}
      | ExitReturn false => exit_loop cbs' l
      | ExitRaise e =>
          exit_loop cbs' {| received_exc := received_exc l;
                            suppressed_exc := suppressed_exc l;
                            pending_raise := true; exc_details := Some e |}
      end
  end.

Definition ExitStack_exit (cbs : exit_callbacks) (exc : option exn) : M (result bool) :=
  l <- exit_loop cbs {| received_exc := bool_decide (is_Some exc);
                        suppressed_exc := false; pending_raise := false;
                        exc_details := exc |} ;;
  ret (if pending_raise l then
         match exc_details l with
         | Some e => Raise e
         | None => Raise (TypeError "exceptions must derive from BaseException")
         end
       else Return (received_exc l && suppressed_exc l)).

(** ** [_server_lifespan] *)

(** The [for manager in app._server_lifespan_managers:] loop, from the
    [i]th manager on.  It ends with the exception that broke it, if any,
    and with the callbacks registered so far. *)
Fixpoint enter_managers (app : App.Litestar) (i : nat) (managers : list App.manager)
    (cbs : exit_callbacks) : M (option exn * exit_callbacks) :=
  match managers with
  | [] => ret (None, cbs)
  | manager :: rest =>
      made <- match manager with
              | App.Prepared cm => ret (Return (Some cm))
              | App.Factory call =>
                  emit (EvManagerCall i) ;;
                  ret (match call (App.state app) with
                       | App.Raises e => Raise e
                       | App.Gives o => Return o
                       end)
              end ;;
      match made with
      | Raise e => ret (Some e, cbs)
      | Return o =>
          entered <- enter_context i o cbs ;;
          match entered with
          | Raise e => ret (Some e, cbs)
          | Return cbs' => enter_managers app (S i) rest cbs'
          end
      end
  end.

(** PEP 479: a [StopIteration] on its way out of a generator leaves it as
    a [RuntimeError]. *)
Definition leaves_generator (e : exn) : exn :=
  match e with
  | StopIteration => RuntimeError "generator raised StopIteration"
  | _ => e
  end.

(** [contextmanager.__enter__], when the setup of the generator broke with
    [e] and [ExitStack.__exit__] answered [r]: an exception raised by a
    release, or [e] itself, leaves the generator; a generator that swallowed
    [e] returns without a [yield]. *)
Definition setup_failure (e : exn) (r : result bool) : exn :=
  match r with
  | Raise e' => leaves_generator e'
  | Return true => RuntimeError "generator didn't yield"
  | Return false => leaves_generator e
  end.

(** [contextmanager.__exit__] after a block that returned: the generator is
    resumed with [next] and runs to its end through [ExitStack.__exit__]. *)
Definition resumed (r : result bool) : result unit :=
  match r with
  | Raise e' => Raise (leaves_generator e')
  | Return _ => Return tt
  end.

(** [contextmanager.__exit__] after a block that raised [v]: [v] is thrown
    into the generator.  When a release raises, that exception leaves the
    generator; when [v] is swallowed the generator ends and so does the
    [with] statement; when [v] itself comes back, [__exit__] returns a false
    value and the [with] statement raises [v] again (also for a
    [StopIteration], which [__exit__] recognises as the cause of the
    [RuntimeError] it caught). *)
Definition thrown (v : exn) (r : result bool) : result unit :=
  match r with
  | Raise e' => Raise (leaves_generator e')
  | Return true => Return tt
  | Return false => Raise v
  end.

(** [with _server_lifespan(app): <block>].  The generator runs to its
    [yield] inside the [ExitStack]; the block runs; its outcome is sent back
    into the generator, which leaves the [ExitStack].  An [__exit__] that
    raises is taken to raise an exception of its own. *)
Definition with_server_lifespan (app : App.Litestar) (block : M (result unit))
    : M (result unit) :=
  entered <- enter_managers app 0 (App._server_lifespan_managers app) [] ;;
  match entered with
  | (Some e, cbs) =>
      r <- ExitStack_exit cbs (Some e) ;;
      ret (Raise (setup_failure e r))
  | (None, cbs) =>
      out <- block ;;
      r <- ExitStack_exit cbs (exc_of out) ;;
      ret (match out with
           | Return _ => resumed r
           | Raise v => thrown v r
           end)
  end.

(** ** [_run_uvicorn_in_subprocess] *)

(** The mapping [process_args] as it stands when [subprocess.run] is called. *)
Definition process_args (env : Env.LitestarEnv) (host : option string)
    (port workers : option Z) (reload : option bool)
    (reload_dirs : option (list string)) (fd : option Z) (uds : option string)
    (certfile_path keyfile_path : option string) : dict value :=
  let d := display [("reload", of_opt_bool reload);
                    ("host", of_opt_str host);
                    ("port", of_opt_int port);
                    ("workers", of_opt_int workers);
                    ("factory", VAtom (ABool (Env.is_app_factory env)))] in
  let d := match fd with Some _ => setitem "fd" (of_opt_int fd) d | None => d end in
  let d := match uds with Some _ => setitem "uds" (of_opt_str uds) d | None => d end in
  let d := if truthy reload_dirs then setitem "reload-dir" (of_opt_tuple reload_dirs) d
           else d in
  let d := match certfile_path with
           | Some _ => setitem "ssl-certfile" (of_opt_str certfile_path) d
           | None => d
           end in
  let d := match keyfile_path with
           | Some _ => setitem "ssl-keyfile" (of_opt_str keyfile_path) d
           | None => d
           end in
  d.

Module Run.
(** The local variables of [run_command] after lines 202-213. *)
Record locals : Type := {
  reload_dirs : option (list string);
  host : option string;
  port : option Z;
  fd : option Z;
  uds : option string;
  reload : option bool;
  workers : option Z;
  ssl_certfile : option string;
  ssl_keyfile : option string;
  create_self_signed_cert : bool
}.
End Run.

Definition uvicorn_missing : string :=
  "uvicorn is not installed. Please install the standard group, litestar\[standard], to use this command.".

Definition debugger_warning : string :=
  "[yellow]Debugger detected. Breakpoints might not work correctly inside route handlers when running with the --reload or --workers options[/]".

Section Launch.

Variable rt : runtime.

(** [subprocess.run(argv, check=True)]: the child runs to completion; a
    non-zero return code raises [CalledProcessError]. *)
Definition subprocess_run_check (argv : list string) : M (result unit) :=
  emit (EvSubprocessRun argv) ;;
  environ <- get_environ ;;
  let returncode := child_returncode rt argv environ in
  ret (if returncode =? 0 then Return tt
       else Raise (CalledProcessError returncode argv)).

Definition _run_uvicorn_in_subprocess (env : Env.LitestarEnv)
    (host : option string) (port workers : option Z) (reload : option bool)
    (reload_dirs : option (list string)) (fd : option Z) (uds : option string)
    (certfile_path keyfile_path : option string) : M (result unit) :=
  let process_args :=
    process_args env host port workers reload reload_dirs fd uds
                 certfile_path keyfile_path in
  subprocess_run_check
    ([sys_executable rt; "-m"; "uvicorn"; Env.app_path env]
       ++ _convert_uvicorn_args process_args).

(** ** [run_command] *)

(** Lines 194-197: [ctx.obj.app.debug = True] under [--debug] and
    [ctx.obj.app.pdb_on_exception = True] under [--pdb]. *)
Definition write_flags (o : Cli.options) (env : Env.LitestarEnv) : Env.LitestarEnv :=
  let env := if Cli.debug o
             then Env.with_app env (App.set_debug (Env.app env)) else env in
  if Cli.pdb o
  then Env.with_app env (App.set_pdb_on_exception (Env.app env)) else env.

(** Lines 191-199: [ctx.obj] is called when it is callable; otherwise the
    flags are written to the application it already holds. *)
Definition load_env (o : Cli.options) : M (result Env.LitestarEnv) :=
  c <- get_obj ;;
  match c with
  | Callable call =>
      emit EvCtxObjCall ;;
      environ <- get_environ ;;
      match call environ with
      | Raise e => ret (Raise e)
      | Return env => set_obj (Resolved env) ;; ret (Return env)
      end
  | Resolved env =>
      let env := write_flags o env in
      set_obj (Resolved env) ;; ret (Return env)
  end.

(** Lines 202-213: the local variables after the merge of the
    environment with the command line. *)
Definition resolve (env : Env.LitestarEnv) (o : Cli.options) : Run.locals :=
  let reload_dirs := or_ (Env.reload_dirs env) (Some (Cli.reload_dir o)) in
  {| Run.reload_dirs := reload_dirs;
     Run.host := or_ (Env.host env) (Some (Cli.host o));
     Run.port := if_not_none (Env.port env) (Some (Cli.port o));
     Run.fd := if_not_none (Env.fd env) (Cli.fd o);
     Run.uds := or_ (Env.uds env) (Cli.uds o);
     Run.reload := or_ (Env.reload env)
                       (Some (or_ (Cli.reload o) (truthy reload_dirs)));
     Run.workers := or_ (Env.web_concurrency env) (Some (Cli.wc o));
     Run.ssl_certfile := or_ (Cli.ssl_certfile o) (Env.certfile_path env);
     Run.ssl_keyfile := or_ (Cli.ssl_keyfile o) (Env.keyfile_path env);
     Run.create_self_signed_cert :=
       or_ (Cli.create_self_signed_cert o) (Env.create_self_signed_cert env) |}.

(** Lines 215-219. *)
Definition ssl_files (v : Run.locals) : M (result (option string * option string)) :=
  if Run.create_self_signed_cert v then
    emit (EvCreateSsl (Run.ssl_certfile v) (Run.ssl_keyfile v) (Run.host v)) ;;
    ret (create_ssl_files rt (Run.ssl_certfile v) (Run.ssl_keyfile v) (Run.host v))
  else
    emit (EvValidateSsl (Run.ssl_certfile v) (Run.ssl_keyfile v)) ;;
    ret (validate_ssl_file_paths rt (Run.ssl_certfile v) (Run.ssl_keyfile v)).

Definition direct_kwargs (env : Env.LitestarEnv) (v : Run.locals)
    (certfile_path keyfile_path : option string) : uvicorn_kwargs :=
  {| kw_app := Env.app_path env;
     kw_host := Run.host v;
     kw_port := Run.port v;
     kw_fd := Run.fd v;
     kw_uds := Run.uds v;
     kw_factory := Env.is_app_factory env;
     kw_ssl_certfile := certfile_path;
     kw_ssl_keyfile := keyfile_path |}.

(** Lines 225-259: the block of [with _server_lifespan(app):]. *)
Definition serve (env : Env.LitestarEnv) (v : Run.locals)
    (certfile_path keyfile_path : option string) : M (result unit) :=
  if bool_decide (Run.workers v = Some 1) && negb (truthy (Run.reload v)) then
    let kwargs := direct_kwargs env v certfile_path keyfile_path in
    emit (EvUvicornRun kwargs) ;;
    ret (of_exc (uvicorn_run rt kwargs))
  else
    when (tracing rt) (emit (EvPrint debugger_warning)) ;;
    _run_uvicorn_in_subprocess env (Run.host v) (Run.port v) (Run.workers v)
      (Run.reload v) (Run.reload_dirs v) (Run.fd v) (Run.uds v)
      certfile_path keyfile_path.

Definition run_command (o : Cli.options) : M (result unit) :=
  when (Cli.debug o) (setenv "LITESTAR_DEBUG" "1") ;;
  when (Cli.pdb o) (setenv "LITESTAR_PDB" "1") ;;
  if negb (UVICORN_INSTALLED rt) then
    emit (EvPrint uvicorn_missing) ;;
    ret (Raise (SystemExit 1))
  else
    env <-! load_env o ;;
    let v := resolve env o in
    paths <-! ssl_files v ;;
    emit (EvRule "[yellow]Starting server process") ;;
    emit EvShowAppInfo ;;
    with_server_lifespan (Env.app env) (serve env v (fst paths) (snd paths)).

End Launch.

(** ** Observations on traces and statements of the specification *)

(** The assembly order the specification gives for the option mapping:
    workers, host, port, then the conditional extras. *)
Definition spec_assembly_order (d : dict value) : Prop :=
  exists extras, keys d = ["workers"; "host"; "port"] ++ extras.

(** The key contributed by a conditional entry of [process_args]. *)
Definition key_if (present : bool) (k : string) : list string :=
  if present then [k] else [].

(** The tokens contributed by a conditional entry of [process_args]. *)
Definition tokens_if (present : bool) (k : string) (v : value) : list string :=
  if present then convert_item k v else [].

(** The two launch strategies, and the launches a trace records. *)
Inductive strategy : Type := Direct | Subprocess.

Definition launch_of (e : event) : option strategy :=
  match e with
  | EvUvicornRun _ => Some Direct
  | EvSubprocessRun _ => Some Subprocess
  | _ => None
  end.

Definition launches (t : list event) : list strategy := omap launch_of t.

(** The world after some more calls have been recorded. *)
Definition record (evs : list event) (w : world) : world :=
  {| environ := environ w; obj := obj w; trace := trace w ++ evs |}.

(** The command line of the child process. *)
Definition child_argv (rt : runtime) (env : Env.LitestarEnv) (v : Run.locals)
    (certfile_path keyfile_path : option string) : list string :=
  [sys_executable rt; "-m"; "uvicorn"; Env.app_path env]
    ++ _convert_uvicorn_args
         (process_args env (Run.host v) (Run.port v) (Run.workers v) (Run.reload v)
                       (Run.reload_dirs v) (Run.fd v) (Run.uds v)
                       certfile_path keyfile_path).

(** What the block of the [with] statement records, and how it ends. *)
Definition serve_events (rt : runtime) (env : Env.LitestarEnv) (v : Run.locals)
    (certfile_path keyfile_path : option string) : list event :=
  if bool_decide (Run.workers v = Some 1) && negb (truthy (Run.reload v)) then
    [EvUvicornRun (direct_kwargs env v certfile_path keyfile_path)]
  else
    (if tracing rt then [EvPrint debugger_warning] else [])
      ++ [EvSubprocessRun (child_argv rt env v certfile_path keyfile_path)].

Definition serve_outcome (rt : runtime) (env : Env.LitestarEnv) (v : Run.locals)
    (certfile_path keyfile_path : option string) (environ : gmap string string)
    : result unit :=
  if bool_decide (Run.workers v = Some 1) && negb (truthy (Run.reload v)) then
    of_exc (uvicorn_run rt (direct_kwargs env v certfile_path keyfile_path))
  else
    let argv := child_argv rt env v certfile_path keyfile_path in
    let returncode := child_returncode rt argv environ in
    if returncode =? 0 then Return tt else Raise (CalledProcessError returncode argv).

(** The positions of the managers whose [__exit__] a trace records. *)
Definition exit_of (e : event) : option nat :=
  match e with EvExit i _ => Some i | _ => None end.

Definition exited (t : list event) : list nat := omap exit_of t.

(** The context manager an entry of [_server_lifespan_managers] stands for,
    when there is one: itself, or what calling it with the application gives. *)
Definition scoped_resource (app : App.Litestar) (m : App.manager)
    : option context_manager :=
  match m with
  | App.Prepared cm => Some cm
  | App.Factory call =>
      match call (App.state app) with App.Gives o => o | App.Raises _ => None end
  end.

(** A manager is acquired when it stands for a context manager whose
    [__enter__] returns. *)
Definition acquirable (app : App.Litestar) (m : App.manager) : bool :=
  match scoped_resource app m with
  | Some cm => match __enter__ cm with None => true | Some _ => false end
  | None => false
  end.

(** How many managers are acquired: acquisition stops at the first failure. *)
Fixpoint acquired (app : App.Litestar) (managers : list App.manager) : nat :=
  match managers with
  | [] => 0%nat
  | m :: rest => if acquirable app m then S (acquired app rest) else 0%nat
  end.

(** Acquisition in registration order, from position [i] on: a factory is
    first called with the application, then the resource is entered. *)
Fixpoint acquisition (app : App.Litestar) (i : nat) (managers : list App.manager)
    : list event :=
  match managers with
  | [] => []
  | m :: rest =>
      match m with App.Factory _ => [EvManagerCall i] | App.Prepared _ => [] end
        ++ match scoped_resource app m with Some _ => [EvEnter i] | None => [] end
        ++ (if acquirable app m then acquisition app (S i) rest else [])
  end.

(** The process environment after lines 179-183. *)
Definition flag_environ (o : Cli.options) (environ : gmap string string)
    : gmap string string :=
  let environ := if Cli.debug o then <["LITESTAR_DEBUG" := "1"]> environ else environ in
  if Cli.pdb o then <["LITESTAR_PDB" := "1"]> environ else environ.

Definition with_flags (o : Cli.options) (w : world) : world :=
  {| environ := flag_environ o (environ w); obj := obj w; trace := trace w |}.

(** The call to the TLS helper that lines 215-219 select, and its outcome. *)
Definition ssl_event (v : Run.locals) : event :=
  if Run.create_self_signed_cert v
  then EvCreateSsl (Run.ssl_certfile v) (Run.ssl_keyfile v) (Run.host v)
  else EvValidateSsl (Run.ssl_certfile v) (Run.ssl_keyfile v).

Definition ssl_outcome (rt : runtime) (v : Run.locals)
    : result (option string * option string) :=
  if Run.create_self_signed_cert v
  then create_ssl_files rt (Run.ssl_certfile v) (Run.ssl_keyfile v) (Run.host v)
  else validate_ssl_file_paths rt (Run.ssl_certfile v) (Run.ssl_keyfile v).

(** What a run records from [console.rule] on, given what each [__exit__]
    was called with. *)
Definition supervised (rt : runtime) (env : Env.LitestarEnv) (v : Run.locals)
    (paths : option string * option string) (excs : list (option exn))
    : list event :=
  let managers := App._server_lifespan_managers (Env.app env) in
  let n := acquired (Env.app env) managers in
  acquisition (Env.app env) 0 managers
    ++ (if bool_decide (n = length managers)
        then serve_events rt env v paths.1 paths.2 else [])
    ++ zip_with EvExit (rev (seq 0 n)) excs.

(** The process-wide debug flag: [LITESTAR_DEBUG] is set to 1. *)
Definition debug_flag (environ : gmap string string) : bool :=
  bool_decide (environ !! "LITESTAR_DEBUG" = Some "1").

(** The world once [ctx.obj] has been replaced. *)
Definition with_obj (o : ctx_obj) (w : world) : world :=
  {| environ := environ w; obj := o; trace := trace w |}.

(** How often a trace records a call of [ctx.obj]. *)
Definition ctx_obj_call_of (e : event) : option unit :=
  match e with EvCtxObjCall => Some tt | _ => None end.

Definition ctx_obj_calls (t : list event) : nat := length (omap ctx_obj_call_of t).

(** The specification's reading of a callable [ctx.obj]: the run calls it
    exactly once. *)
Definition spec_called_once (w : world) (out : result unit * world) : Prop :=
  match obj w with
  | Callable _ => ctx_obj_calls (trace out.2) = S (ctx_obj_calls (trace w))
  | Resolved _ => True
  end.

(** The first source, in priority order, that is set; the last resort
    answers when none is. *)
Fixpoint first_set {A} (is_set : A -> bool) (sources : list A) (last : A) : A :=
  match sources with
  | [] => last
  | x :: rest => if is_set x then x else first_set is_set rest last
  end.

Definition not_none {A} (x : option A) : bool :=
  match x with Some _ => true | None => false end.

(** The priority order of the specification: the value of the context
    object when it is set, else the command line flag, which carries the
    default. *)
Definition spec_priority {A} `{Truthy A} (from_env from_flag : A) : A :=
  first_set truthy [from_env] from_flag.

(** Whether a mode of binding is set; host and port are always set. *)
Definition bind_modes (v : Run.locals) : nat :=
  ((if not_none (Run.fd v) then 1 else 0)
   + (if not_none (Run.uds v) then 1 else 0)
   + (if not_none (Run.host v) && not_none (Run.port v) then 1 else 0))%nat.

(** A launch that carries the bind options as they were resolved: as the
    keyword arguments of [uvicorn.run], or as tokens of the child's command
    line for those that are set. *)
Definition forwards_bind_options (v : Run.locals) (launch : event) : Prop :=
  match launch with
  | EvUvicornRun kwargs =>
      kw_host kwargs = Run.host v /\ kw_port kwargs = Run.port v
      /\ kw_fd kwargs = Run.fd v /\ kw_uds kwargs = Run.uds v
  | EvSubprocessRun argv =>
      (forall h, Run.host v = Some h -> ("--host=" +:+ h) ∈ argv)
      /\ (forall p, Run.port v = Some p -> ("--port=" +:+ pretty p) ∈ argv)
      /\ (forall n, Run.fd v = Some n -> ("--fd=" +:+ pretty n) ∈ argv)
      /\ (forall s, Run.uds v = Some s -> ("--uds=" +:+ s) ∈ argv)
  | _ => False
  end.

(** The specification's outcome for conflicting bind options: a
    [ConfigurationError], and no server launched. *)
Definition spec_launch_aborted (w : world) (out : result unit * world) : Prop :=
  (exists msg, out.1 = Raise (ConfigurationError msg))
  /\ launches (trace out.2) = launches (trace w).

Module Sample.
(** A small application, environment and command line to run the model on. *)
Definition quiet : context_manager :=
  {| __enter__ := None; __exit__ := fun _ => ExitReturn false |}.

Definition noisy : context_manager :=
  {| __enter__ := None; __exit__ := fun _ => ExitRaise (Exception "B") |}.

Definition app (managers : list App.manager) : App.Litestar :=
  {| App.state := {| App.debug := false; App.pdb_on_exception := false |};
     App._server_lifespan_managers := managers |}.

Definition env (a : App.Litestar) : Env.LitestarEnv :=
  {| Env.app_path := "app:app"; Env.app := a; Env.host := None;
     Env.port := None; Env.fd := None; Env.uds := None; Env.reload := None;
     Env.reload_dirs := None; Env.web_concurrency := None;
     Env.is_app_factory := false; Env.certfile_path := None;
     Env.keyfile_path := None; Env.create_self_signed_cert := false |}.

(** [litestar run] with every option at its default. *)
Definition defaults : Cli.options :=
  {| Cli.reload := false; Cli.port := 8000; Cli.wc := 1;
     Cli.host := "127.0.0.1"; Cli.fd := None; Cli.uds := None;
     Cli.debug := false; Cli.reload_dir := []; Cli.pdb := false;
     Cli.ssl_certfile := None; Cli.ssl_keyfile := None;
     Cli.create_self_signed_cert := false |}.

(** The lifespan example of the specification: managers A, B and C, where
    the release of B raises. *)
Definition abc : App.Litestar :=
  app [App.Prepared quiet; App.Factory (fun _ => App.Gives (Some noisy));
       App.Prepared quiet].

(** A server runtime that is installed, finds no TLS material to check,
    and whose server fails: in process by raising, as a child with exit
    status 3. *)
Definition failing_server : runtime :=
  {| UVICORN_INSTALLED := true;
     sys_executable := "python";
     tracing := false;
     validate_ssl_file_paths := fun c k => Return (c, k);
     create_ssl_files := fun c k _ => Return (c, k);
     uvicorn_run := fun _ => Some (Exception "server");
     child_returncode := fun _ _ => 3 |}.

(** Modelled from the spec: [validate_ssl_file_paths] is defined in
    [litestar.cli._utils], outside this file.  It "fails with
    ConfigurationError if exactly one of the two paths is supplied, or if a
    supplied path does not exist; returns (None, None) if both are absent,
    else returns both paths unchanged". *)
Definition validate (exists_ : string -> bool) (certfile keyfile : option string)
    : result (option string * option string) :=
  match certfile, keyfile with
  | None, None => Return (None, None)
  | Some c, Some k =>
      if exists_ c && exists_ k then Return (Some c, Some k)
      else Raise (ConfigurationError "File not found")
  | _, _ => Raise (ConfigurationError "Both certificate and key file must be specified")
  end.

(** A server runtime that is installed and stops cleanly, on a machine
    without any TLS file. *)
Definition server : runtime :=
  {| UVICORN_INSTALLED := true;
     sys_executable := "python";
     tracing := false;
     validate_ssl_file_paths := validate (fun _ => false);
     create_ssl_files := fun c k _ => Return (c, k);
     uvicorn_run := fun _ => None;
     child_returncode := fun _ _ => 0 |}.

(** The same machine without uvicorn. *)
Definition no_uvicorn : runtime :=
  {| UVICORN_INSTALLED := false;
     sys_executable := "python";
     tracing := false;
     validate_ssl_file_paths := validate (fun _ => false);
     create_ssl_files := fun c k _ => Return (c, k);
     uvicorn_run := fun _ => None;
     child_returncode := fun _ _ => 0 |}.

(** [litestar run --fd 3 --uds /tmp/uvicorn.sock] *)
Definition fd_and_uds : Cli.options :=
  {| Cli.reload := false; Cli.port := 8000; Cli.wc := 1;
     Cli.host := "127.0.0.1"; Cli.fd := Some 3;
     Cli.uds := Some "/tmp/uvicorn.sock";
     Cli.debug := false; Cli.reload_dir := []; Cli.pdb := false;
     Cli.ssl_certfile := None; Cli.ssl_keyfile := None;
     Cli.create_self_signed_cert := false |}.

(** [litestar run --debug --pdb] *)
Definition debugging : Cli.options :=
  {| Cli.reload := false; Cli.port := 8000; Cli.wc := 1;
     Cli.host := "127.0.0.1"; Cli.fd := None; Cli.uds := None;
     Cli.debug := true; Cli.reload_dir := []; Cli.pdb := true;
     Cli.ssl_certfile := None; Cli.ssl_keyfile := None;
     Cli.create_self_signed_cert := false |}.

(** The environment names one pair of TLS files, the command line another. *)
Definition tls_env : Env.LitestarEnv :=
  {| Env.app_path := "app:app"; Env.app := app []; Env.host := None;
     Env.port := None; Env.fd := None; Env.uds := None; Env.reload := None;
     Env.reload_dirs := None; Env.web_concurrency := None;
     Env.is_app_factory := false; Env.certfile_path := Some "env-cert.pem";
     Env.keyfile_path := Some "env-key.pem";
     Env.create_self_signed_cert := false |}.

Definition tls_flags : Cli.options :=
  {| Cli.reload := false; Cli.port := 8000; Cli.wc := 1;
     Cli.host := "127.0.0.1"; Cli.fd := None; Cli.uds := None;
     Cli.debug := false; Cli.reload_dir := []; Cli.pdb := false;
     Cli.ssl_certfile := Some "cli-cert.pem";
     Cli.ssl_keyfile := Some "cli-key.pem";
     Cli.create_self_signed_cert := false |}.

(** A [ctx.obj] that still has to load the application. *)
Definition loader : ctx_obj := Callable (fun _ => Return (env (app []))).

Definition world0 (o : ctx_obj) : world :=
  {| environ := ∅; obj := o; trace := [] |}.
End Sample.

(** ** Kinds of lifespan managers *)

(** A context manager whose [__exit__] lets every exception through. *)
Definition passive (cm : context_manager) : Prop :=
  forall exc, __exit__ cm exc = ExitReturn false.

(** A context manager whose [__exit__] always asks to swallow the exception. *)
Definition swallowing (cm : context_manager) : Prop :=
  forall exc, __exit__ cm exc = ExitReturn true.


(** A manager that is acquired and then stays out of the way. *)
Definition well_behaved (app : App.Litestar) (m : App.manager) : Prop :=
  exists cm, scoped_resource app m = Some cm /\ __enter__ cm = None /\ passive cm.

Module Cases.
(** Further managers, applications and command lines to run the model on. *)

(** A manager whose [__exit__] always returns a true value. *)
Definition swallower : context_manager :=
  {| __enter__ := None; __exit__ := fun _ => ExitReturn true |}.

(** A manager whose [__enter__] raises. *)
Definition broken : context_manager :=
  {| __enter__ := Some (Exception "setup"); __exit__ := fun _ => ExitReturn false |}.

(** [litestar run --reload-dir src --reload-dir docs] *)
Definition watching : Cli.options :=
  {| Cli.reload := false; Cli.port := 8000; Cli.wc := 1;
     Cli.host := "127.0.0.1"; Cli.fd := None; Cli.uds := None;
     Cli.debug := false; Cli.reload_dir := ["src"; "docs"]; Cli.pdb := false;
     Cli.ssl_certfile := None; Cli.ssl_keyfile := None;
     Cli.create_self_signed_cert := false |}.


(** A [ctx.obj] whose call fails. *)
Definition failing_loader : ctx_obj :=
  Callable (fun _ => Raise (Exception "no app")).
End Cases.

(** ** [routes_command] *)

Module Routes.

(** [sorted(iterable, key=key)] with [str] keys.  Python compares strings by
    code point, which for UTF-8 bytes is the bytewise lexicographic order of
    [String.leb]; the sort is stable, and a stable sort has one result, so
    insertion into a sorted list, ahead of the items that compare equal,
    computes it. *)
Fixpoint insort {A} (key : A -> string) (x : A) (l : list A) : list A :=
  match l with
  | [] => [x]
  | y :: l' =>
      if String.leb (key x) (key y) then x :: y :: l' else y :: insort key x l'
  end.

Definition sorted {A} (key : A -> string) (l : list A) : list A :=
  fold_right (insort key) [] l.

(** [sep.join(items)] *)
Definition join (sep : string) (items : list string) : string :=
  String.concat sep items.

(** [rich.tree.Tree]: a label and the trees added under it, in order. *)
#[local] Unset Elimination Schemes.
Inductive Tree : Type :=
| Node (label : string) (children : list Tree).

#[local] Set Elimination Schemes.

Definition label (t : Tree) : string := match t with Node l _ => l end.

Definition children (t : Tree) : list Tree := match t with Node _ c => c end.

(** [tree.add(child)] *)
Definition add (t child : Tree) : Tree := Node (label t) (children t ++ [child]).

(** What [routes_command] reads of a route handler.  [is_coroutine] is
    [inspect.iscoroutinefunction(unwrap_partial(handler.fn))]; [http_methods]
    and [paths] are the collections in the order their iteration gives. *)
Record handler : Type := {
  name : option string;
  handler_name : string;
  is_coroutine : bool;
  http_methods : list string;
  paths : list string
}.

(** A route of [app.routes]: an [HTTPRoute], a [WebSocketRoute], or any
    other route. *)
Inductive route : Type :=
| HTTPRoute (path : string) (route_handlers : list handler)
| WebSocketRoute (path : string) (route_handler : handler)
| ASGIRoute (path : string) (route_handler : handler).

Definition path (r : route) : string :=
  match r with
  | HTTPRoute p _ | WebSocketRoute p _ | ASGIRoute p _ => p
  end.

(** An f-string field holding a [str | None]. *)
Definition fmt (x : option string) : string :=
  match x with Some s => s | None => "None" end.

(** [handler.name or handler.handler_name] between blue tags. *)
Definition blue_name (h : handler) : string :=
  "[blue]" +:+ fmt (or_ (name h) (Some (handler_name h))) +:+ "[/blue]".

(** Lines 272-281: the list [handler_info]. *)
Definition handler_info (h : handler) : list string :=
  let handler_info := [blue_name h] in
  let handler_info :=
    handler_info ++ [if is_coroutine h then "[magenta]async[/magenta]"
                     else "[yellow]sync[/yellow]"] in
  handler_info
    ++ ["[cyan]" +:+ join ", " (sorted (fun m => m) (http_methods h)) +:+ "[/cyan]"].

(** Lines 271-287: the body of [for handler in route.route_handlers:]. *)
Definition add_handler (branch : Tree) (h : handler) : Tree :=
  let handler_info := handler_info h in
  if (1 <? length (paths h))%nat then
    fold_left
      (fun branch path =>
         add branch (Node (join " " (("[green]" +:+ path +:+ "[green]")
                                       :: handler_info)) []))
      (paths h) branch
  else add branch (Node (join " " handler_info) []).

(** Lines 269-292: the body of [for route in sorted(...)]. *)
Definition add_route (tree : Tree) (r : route) : Tree :=
  match r with
  | HTTPRoute p handlers =>
      add tree (fold_left add_handler handlers
                  (Node ("[green]" +:+ p +:+ "[/green] (HTTP)") []))
  | WebSocketRoute p h =>
      add tree (add (Node ("[green]" +:+ p +:+ "[/green] (" +:+ "WS" +:+ ")") [])
                    (Node (blue_name h) []))
  | ASGIRoute p h =>
      add tree (add (Node ("[green]" +:+ p +:+ "[/green] (" +:+ "ASGI" +:+ ")") [])
                    (Node (blue_name h) []))
  end.

(** The tree that [routes_command] hands to [console.print]. *)
Definition routes_command (routes : list route) : Tree :=
  fold_left add_route (sorted path routes) (Node "" []).

(** The listing in one piece: the heading of a route, the lines of a
    handler, and the branch of a route. *)
Definition kind (r : route) : string :=
  match r with
  | HTTPRoute _ _ => "HTTP"
  | WebSocketRoute _ _ => "WS"
  | ASGIRoute _ _ => "ASGI"
  end.

Definition heading (r : route) : string :=
  "[green]" +:+ path r +:+ "[/green] (" +:+ kind r +:+ ")".

Definition lines (h : handler) : list Tree :=
  if (1 <? length (paths h))%nat then
    map (fun path => Node (join " " (("[green]" +:+ path +:+ "[green]")
                                       :: handler_info h)) [])
        (paths h)
  else [Node (join " " (handler_info h)) []].

Definition branch (r : route) : Tree :=
  match r with
  | HTTPRoute _ handlers => Node (heading r) (flat_map lines handlers)
  | WebSocketRoute _ h | ASGIRoute _ h => Node (heading r) [Node (blue_name h) []]
  end.

(** The routes in ascending order of their paths. *)
Definition ascending (routes : list route) : Prop :=
  Sorted (fun r1 r2 => String.le (path r1) (path r2)) routes.

(** The number of lines under the branch of a route: an HTTP route has one
    per path of a handler with several paths and one for any other handler;
    other routes have one. *)
Definition lines_under (r : route) : nat :=
  match r with
  | HTTPRoute _ handlers =>
      sum_list (map (fun h => length (paths h) `max` 1)%nat handlers)
  | _ => 1%nat
  end.

(** A handler with its HTTP methods held in another order. *)
Definition with_methods (h : handler) (methods : list string) : handler :=
  {| name := name h; handler_name := handler_name h;
     is_coroutine := is_coroutine h; http_methods := methods; paths := paths h |}.

(** Two routes to list. *)
Definition books : route :=
  HTTPRoute "/books"
    [{| name := None; handler_name := "list_books"; is_coroutine := true;
        http_methods := ["POST"; "GET"]; paths := ["/books"] |}].

Definition feed : route :=
  WebSocketRoute "/feed"
    {| name := Some "feed"; handler_name := "feed_handler"; is_coroutine := true;
       http_methods := []; paths := ["/feed"] |}.

End Routes.

(** * Properties *)

Lemma fold_convert_acc (args : dict value) (acc : list string) :
  fold_left (fun process_args kv => process_args ++ convert_item (fst kv) (snd kv))
            args acc
  = acc ++ _convert_uvicorn_args args.
Proof.
  unfold _convert_uvicorn_args.
  revert acc. induction args as [|kv args IH]; intros acc; simpl.
  - by rewrite app_nil_r.
  - rewrite (IH (acc ++ _)), (IH (convert_item _ _)). by rewrite app_assoc.
Qed.

Lemma convert_cons (arg : string) (v : value) (args : dict value) :
  _convert_uvicorn_args ((arg, v) :: args)
  = convert_item arg v ++ _convert_uvicorn_args args.
Proof. unfold _convert_uvicorn_args at 1. simpl. apply fold_convert_acc. Qed.

Lemma convert_app (args1 args2 : dict value) :
  _convert_uvicorn_args (args1 ++ args2)
  = _convert_uvicorn_args args1 ++ _convert_uvicorn_args args2.
Proof.
  induction args1 as [|[k v] args1 IH]; [done|].
  simpl. by rewrite !convert_cons, IH, app_assoc.
Qed.

Lemma convert_item_marshals (arg : string) (v : value) :
  marshals arg v (convert_item arg v).
Proof.
  destruct v as [a|items]; [|constructor].
  destruct a as [|[]| |]; simpl; try constructor; congruence.
Qed.

Lemma marshals_functional (arg : string) (v : value) (toks : list string) :
  marshals arg v toks -> toks = convert_item arg v.
Proof.
  intros H. destruct H as [| |items|a Ha]; try reflexivity.
  destruct a; try reflexivity. by destruct (Ha b).
Qed.

(** ** The argument marshaller *)

Lemma marshals_all_convert (args : dict value) :
  marshals_all args (_convert_uvicorn_args args).
Proof.
  induction args as [|[k v] args IH]; [constructor|].
  rewrite convert_cons. constructor; [apply convert_item_marshals|done].
Qed.

Lemma convert_flat_map (args : dict value) :
  _convert_uvicorn_args args = flat_map (fun kv => convert_item kv.1 kv.2) args.
Proof.
  induction args as [|[k v] args IH]; [done|].
  rewrite convert_cons, IH. done.
Qed.

(** C3: [_convert_uvicorn_args] marshals every mapping item by item, in the
    order of the mapping: nothing for [False], the bare flag for [True], one
    [--name=item] per element of a tuple, and one [--name=value] for any
    other value.  The two mappings of the specification give the stated
    tokens. *)
Theorem C3_marshalling_rules (args : dict value) :
  marshals_all args (_convert_uvicorn_args args)
  /\ _convert_uvicorn_args
       (display [("reload", VAtom (ABool true));
                 ("host", VAtom (AStr "0.0.0.0"));
                 ("reload-dir", VTuple [AStr "a"; AStr "b"])])
     = ["--reload"; "--host=0.0.0.0"; "--reload-dir=a"; "--reload-dir=b"]
  /\ _convert_uvicorn_args (display [("reload", VAtom (ABool false))]) = [].
Proof. split; [apply marshals_all_convert|]. split; reflexivity. Qed.

(** ** The option mapping of the subprocess strategy *)

Section ProcessArgs.

Variables (env : Env.LitestarEnv) (host : option string) (port workers : option Z)
          (reload : option bool) (reload_dirs : option (list string))
          (fd : option Z) (uds certfile_path keyfile_path : option string).

Let d := process_args env host port workers reload reload_dirs fd uds
                      certfile_path keyfile_path.

Lemma process_args_keys :
  keys d = ["reload"; "host"; "port"; "workers"; "factory"]
             ++ key_if (bool_decide (is_Some fd)) "fd"
             ++ key_if (bool_decide (is_Some uds)) "uds"
             ++ key_if (truthy reload_dirs) "reload-dir"
             ++ key_if (bool_decide (is_Some certfile_path)) "ssl-certfile"
             ++ key_if (bool_decide (is_Some keyfile_path)) "ssl-keyfile".
Proof.
  subst d. destruct fd, uds, reload_dirs as [[|]|], certfile_path, keyfile_path;
    reflexivity.
Qed.

Lemma process_args_tokens :
  _convert_uvicorn_args d
  = convert_item "reload" (of_opt_bool reload)
      ++ convert_item "host" (of_opt_str host)
      ++ convert_item "port" (of_opt_int port)
      ++ convert_item "workers" (of_opt_int workers)
      ++ convert_item "factory" (VAtom (ABool (Env.is_app_factory env)))
      ++ tokens_if (bool_decide (is_Some fd)) "fd" (of_opt_int fd)
      ++ tokens_if (bool_decide (is_Some uds)) "uds" (of_opt_str uds)
      ++ tokens_if (truthy reload_dirs) "reload-dir" (of_opt_tuple reload_dirs)
      ++ tokens_if (bool_decide (is_Some certfile_path)) "ssl-certfile"
                   (of_opt_str certfile_path)
      ++ tokens_if (bool_decide (is_Some keyfile_path)) "ssl-keyfile"
                   (of_opt_str keyfile_path).
Proof.
  rewrite convert_flat_map. subst d.
  destruct fd, uds, reload_dirs as [[|]|], certfile_path, keyfile_path;
    cbn [process_args display fold_left setitem fst snd String.eqb Ascii.eqb
         Bool.eqb flat_map tokens_if bool_decide decide_rel is_Some_dec truthy
         truthy_option truthy_tuple of_opt_int of_opt_str of_opt_tuple];
    rewrite ?app_nil_r; reflexivity.
Qed.

End ProcessArgs.

(** C7 (as stated): the specification's assembly order, workers first, is
    not the order of [process_args]; already the default configuration with
    four workers starts with [reload]. *)
Lemma C7_assembly_order_counterexample :
  ~ spec_assembly_order
      (process_args (Sample.env (Sample.app [])) (Some "127.0.0.1") (Some 9000)
                    (Some 4) (Some false) (Some []) None None None None).
Proof. intros [extras H]. discriminate H. Qed.

(** C7 (amended): the tokens passed to the child follow the order of the
    mapping [process_args], and that order is reload, host, port, workers,
    factory, then the conditional entries fd, uds, reload-dir, ssl-certfile
    and ssl-keyfile. *)
Theorem C7_assembly_order (rt : runtime) (env : Env.LitestarEnv)
    (host : option string) (port workers : option Z) (reload : option bool)
    (reload_dirs : option (list string)) (fd : option Z)
    (uds certfile_path keyfile_path : option string) (w : world) :
  let d := process_args env host port workers reload reload_dirs fd uds
                        certfile_path keyfile_path in
  keys d = ["reload"; "host"; "port"; "workers"; "factory"]
             ++ key_if (bool_decide (is_Some fd)) "fd"
             ++ key_if (bool_decide (is_Some uds)) "uds"
             ++ key_if (truthy reload_dirs) "reload-dir"
             ++ key_if (bool_decide (is_Some certfile_path)) "ssl-certfile"
             ++ key_if (bool_decide (is_Some keyfile_path)) "ssl-keyfile"
  /\ _convert_uvicorn_args d = flat_map (fun kv => convert_item kv.1 kv.2) d
  /\ trace (_run_uvicorn_in_subprocess rt env host port workers reload reload_dirs
              fd uds certfile_path keyfile_path w).2
     = trace w ++ [EvSubprocessRun ([sys_executable rt; "-m"; "uvicorn";
                                     Env.app_path env]
                                      ++ flat_map (fun kv => convert_item kv.1 kv.2) d)].
Proof.
  intros d. split; [apply process_args_keys|].
  split; [apply convert_flat_map|].
  unfold _run_uvicorn_in_subprocess. fold d. by rewrite convert_flat_map.
Qed.

(** ** The block of the [with] statement *)

Lemma serve_run (rt : runtime) (env : Env.LitestarEnv) (v : Run.locals)
    (certfile_path keyfile_path : option string) (w : world) :
  serve rt env v certfile_path keyfile_path w
  = (serve_outcome rt env v certfile_path keyfile_path (environ w),
     record (serve_events rt env v certfile_path keyfile_path) w).
Proof.
  unfold serve, serve_outcome, serve_events.
  destruct (bool_decide _ && negb _); [done|].
  unfold _run_uvicorn_in_subprocess, subprocess_run_check, when, bind, emit, ret,
    get_environ, record. fold (child_argv rt env v certfile_path keyfile_path).
  destruct (tracing rt); cbn; by rewrite <- ?app_assoc.
Qed.

Lemma launches_app (t1 t2 : list event) :
  launches (t1 ++ t2) = launches t1 ++ launches t2.
Proof. apply omap_app. Qed.

Lemma launches_serve_events (rt : runtime) (env : Env.LitestarEnv) (v : Run.locals)
    (certfile_path keyfile_path : option string) :
  launches (serve_events rt env v certfile_path keyfile_path)
  = [if bool_decide (Run.workers v = Some 1) && negb (truthy (Run.reload v))
     then Direct else Subprocess].
Proof.
  unfold serve_events.
  destruct (bool_decide _ && negb _); [done|]. by destruct (tracing rt).
Qed.

(** C1: the block launches the server exactly once; directly if and only if
    [workers == 1] and [reload] is false, and in a subprocess whenever
    [workers > 1] or [reload] is true. *)
Theorem C1_strategy_choice (rt : runtime) (env : Env.LitestarEnv) (v : Run.locals)
    (certfile_path keyfile_path : option string) (w : world) :
  let w' := (serve rt env v certfile_path keyfile_path w).2 in
  (launches (trace w') = launches (trace w) ++ [Direct]
   <-> Run.workers v = Some 1 /\ truthy (Run.reload v) = false)
  /\ ((exists n, Run.workers v = Some n /\ 1 < n) \/ truthy (Run.reload v) = true ->
      launches (trace w') = launches (trace w) ++ [Subprocess])
  /\ (launches (trace w') = launches (trace w) ++ [Direct]
      \/ launches (trace w') = launches (trace w) ++ [Subprocess]).
Proof.
  intros w'. subst w'. rewrite serve_run. cbn [snd record trace].
  rewrite launches_app, launches_serve_events.
  destruct (bool_decide_reflect (Run.workers v = Some 1)) as [Hw|Hw];
    destruct (truthy (Run.reload v)) eqn:Hr; cbn [andb negb].
  - split; [split; [intros H; apply app_inv_head in H; discriminate H
                   |intros [_ ?]; discriminate]|].
    split; [done|by right].
  - split; [done|]. split; [|by left].
    intros [(n & Hn & Hlt)|?]; [|discriminate].
    rewrite Hw in Hn. injection Hn as <-. lia.
  - split; [split; [intros H; apply app_inv_head in H; discriminate H
                   |intros [? _]; done]|].
    split; [done|by right].
  - split; [split; [intros H; apply app_inv_head in H; discriminate H
                   |intros [? _]; done]|].
    split; [done|by right].
Qed.

(** ** The lifespan supervisor *)

Lemma record_record (evs1 evs2 : list event) (w : world) :
  record evs2 (record evs1 w) = record (evs1 ++ evs2) w.
Proof. unfold record. cbn. by rewrite app_assoc. Qed.

Lemma record_nil (w : world) : record [] w = w.
Proof. destruct w. unfold record. cbn. by rewrite app_nil_r. Qed.

Lemma emit_run (e : event) (w : world) : emit e w = (tt, record [e] w).
Proof. done. Qed.

(** Every registered callback is called, whatever the earlier ones did. *)
Lemma exit_loop_run (cbs : exit_callbacks) (l : exit_locals) (w : world) :
  exists excs,
    length excs = length cbs
    /\ (exit_loop cbs l w).2 = record (zip_with EvExit cbs.*1 excs) w.
Proof.
  revert l w. induction cbs as [|[i cm] cbs IH]; intros l w.
  - exists []. by rewrite record_nil.
  - cbn [exit_loop]. unfold bind at 1. rewrite emit_run.
    destruct (__exit__ cm (exc_details l)) as [[]|e];
      match goal with |- context [exit_loop cbs ?l' ?w'] =>
        destruct (IH l' w') as (excs & Hlen & ->) end;
      exists (exc_details l :: excs); cbn; rewrite Hlen, record_record; done.
Qed.

Lemma ExitStack_exit_run (cbs : exit_callbacks) (exc : option exn) (w : world) :
  exists excs,
    length excs = length cbs
    /\ (ExitStack_exit cbs exc w).2 = record (zip_with EvExit cbs.*1 excs) w.
Proof.
  unfold ExitStack_exit, bind, ret.
  match goal with |- context [exit_loop cbs ?l w] =>
    destruct (exit_loop_run cbs l w) as (excs & Hlen & Hw);
    destruct (exit_loop cbs l w) as [l' w'] end.
  cbn in Hw. subst w'. by exists excs.
Qed.

Lemma acquired_le (app : App.Litestar) (managers : list App.manager) :
  (acquired app managers <= length managers)%nat.
Proof.
  induction managers as [|m rest IH]; cbn; [lia|].
  destruct (acquirable app m); lia.
Qed.

(** The loop records the acquisition, registers one callback per acquired
    manager, most recent first, and breaks exactly when a manager is not
    acquired. *)
Lemma enter_managers_run (app : App.Litestar) (managers : list App.manager)
    (i : nat) (cbs : exit_callbacks) (w : world) :
  exists exc cbs',
    enter_managers app i managers cbs w
    = (exc, cbs', record (acquisition app i managers) w)
    /\ cbs'.*1 = rev (seq i (acquired app managers)) ++ cbs.*1
    /\ (exc = None <-> acquired app managers = length managers).
Proof.
  revert i cbs w. induction managers as [|m rest IH]; intros i cbs w.
  - exists None, cbs. cbn. by rewrite record_nil.
  - cbn [enter_managers acquired acquisition length]. unfold acquirable.
    destruct m as [cm|call]; cbn [scoped_resource];
      unfold bind, ret, enter_context, emit.
    + destruct (__enter__ cm) as [e|].
      * exists (Some e), cbs. cbn. split; [done|]. split; [done|]. split; [done|lia].
      * destruct (IH (S i) ((i, cm) :: cbs) (record [EvEnter i] w))
          as (exc & cbs' & Heq & Hcbs & Hexc).
        exists exc, cbs'. unfold record in Heq at 1. cbn in Heq |- *. rewrite Heq.
        split; [by rewrite record_record|].
        split; [rewrite Hcbs; cbn; by rewrite <- app_assoc|].
        rewrite Hexc. split; lia.
    + destruct (call (App.state app)) as [e|[cm|]].
      * exists (Some e), cbs. cbn. split; [done|]. split; [done|]. split; [done|lia].
      * destruct (__enter__ cm) as [e|].
        -- exists (Some e), cbs. cbn.
           split; [unfold record; cbn; by rewrite <- app_assoc|].
           split; [done|]. split; [done|lia].
        -- destruct (IH (S i) ((i, cm) :: cbs)
                        (record [EvManagerCall i; EvEnter i] w))
             as (exc & cbs' & Heq & Hcbs & Hexc).
           exists exc, cbs'. unfold record in Heq at 1. cbn in Heq |- *.
           rewrite <- app_assoc. cbn. rewrite Heq.
           split; [by rewrite record_record|].
           split; [rewrite Hcbs; cbn; by rewrite <- app_assoc|].
           rewrite Hexc. split; lia.
      * exists (Some (TypeError "object does not support the context manager protocol")), cbs.
        cbn. split; [done|]. split; [done|]. split; [done|lia].
Qed.

Lemma lifespan_run (rt : runtime) (app : App.Litestar) (env : Env.LitestarEnv)
    (v : Run.locals) (certfile_path keyfile_path : option string) (w : world) :
  let managers := App._server_lifespan_managers app in
  let n := acquired app managers in
  exists excs,
    length excs = n
    /\ (with_server_lifespan app (serve rt env v certfile_path keyfile_path) w).2
       = record (acquisition app 0 managers
                   ++ (if bool_decide (n = length managers)
                       then serve_events rt env v certfile_path keyfile_path else [])
                   ++ zip_with EvExit (rev (seq 0 n)) excs) w.
Proof.
  intros managers n.
  unfold with_server_lifespan, bind. fold managers.
  destruct (enter_managers_run app managers 0 [] w)
    as (exc & cbs & -> & Hcbs & Hexc).
  fold n in Hcbs, Hexc. cbn [fmap list_fmap] in Hcbs. rewrite app_nil_r in Hcbs.
  assert (length cbs = n) as Hn.
  { rewrite <- (length_fmap fst cbs). unfold fmap in Hcbs |- *.
    rewrite Hcbs, length_rev. apply length_seq. }
  destruct exc as [e|].
  - destruct (ExitStack_exit_run cbs (Some e)
                (record (acquisition app 0 managers) w)) as (excs & Hlen & Hw).
    destruct (ExitStack_exit cbs (Some e) _) as [r w1]. cbn in Hw. subst w1.
    exists excs. split; [lia|]. cbn [snd]. rewrite record_record, Hcbs.
    rewrite bool_decide_eq_false_2; [done|].
    intros Heq. by apply Hexc in Heq.
  - rewrite serve_run.
    destruct (ExitStack_exit_run cbs
                (exc_of (serve_outcome rt env v certfile_path keyfile_path
                           (environ (record (acquisition app 0 managers) w))))
                (record (serve_events rt env v certfile_path keyfile_path)
                        (record (acquisition app 0 managers) w)))
      as (excs & Hlen & Hw).
    destruct (ExitStack_exit cbs _ _) as [r w1]. cbn in Hw. subst w1.
    exists excs. split; [lia|]. cbn [snd]. rewrite !record_record, Hcbs.
    rewrite bool_decide_eq_true_2; [by rewrite <- ?app_assoc|].
    by apply Hexc.
Qed.

(** A manager that is not acquired ends the [with] statement with an
    exception. *)
Lemma lifespan_setup_fails (app : App.Litestar) (block : M (result unit))
    (w : world) :
  acquired app (App._server_lifespan_managers app)
  <> length (App._server_lifespan_managers app) ->
  exists e, (with_server_lifespan app block w).1 = Raise e.
Proof.
  intros H. unfold with_server_lifespan, bind.
  destruct (enter_managers_run app (App._server_lifespan_managers app) 0 [] w)
    as (exc & cbs & -> & _ & Hexc).
  destruct exc as [e|]; [|by destruct H; apply Hexc].
  destruct (ExitStack_exit cbs (Some e) _) as [r w1]. by eexists.
Qed.

Lemma exited_app (t1 t2 : list event) : exited (t1 ++ t2) = exited t1 ++ exited t2.
Proof. apply omap_app. Qed.

Lemma exited_acquisition (app : App.Litestar) (managers : list App.manager) (i : nat) :
  exited (acquisition app i managers) = [].
Proof.
  revert i. induction managers as [|m rest IH]; intros i; [done|].
  cbn [acquisition]. rewrite !exited_app.
  destruct (acquirable app m); [rewrite (IH (S i))|];
    destruct m, (scoped_resource app _); done.
Qed.

Lemma exited_serve_events (rt : runtime) (env : Env.LitestarEnv) (v : Run.locals)
    (certfile_path keyfile_path : option string) :
  exited (serve_events rt env v certfile_path keyfile_path) = [].
Proof.
  unfold serve_events. destruct (bool_decide _ && negb _); [done|].
  by destruct (tracing rt).
Qed.

Lemma exited_exits (positions : list nat) (excs : list (option exn)) :
  length excs = length positions ->
  exited (zip_with EvExit positions excs) = positions.
Proof.
  revert excs. induction positions as [|i positions IH]; intros [|exc excs] Hlen;
    try done.
  cbn. f_equal. apply IH. by injection Hlen.
Qed.

(** C2: the managers are acquired in registration order, a factory being
    called with the application first; the server is launched only when all
    of them were acquired; and whether the server returns, raises, or the
    acquisition breaks partway, [__exit__] is called on exactly the acquired
    managers, once each, in reverse order of acquisition, whatever the
    earlier [__exit__] calls returned or raised. *)
Theorem C2_lifespan_release_order (rt : runtime) (app : App.Litestar)
    (env : Env.LitestarEnv) (v : Run.locals)
    (certfile_path keyfile_path : option string) (w : world) :
  let managers := App._server_lifespan_managers app in
  let n := acquired app managers in
  let w' := (with_server_lifespan app (serve rt env v certfile_path keyfile_path) w).2 in
  exited (trace w') = exited (trace w) ++ rev (seq 0 n)
  /\ exists excs,
       length excs = n
       /\ trace w'
          = trace w
              ++ acquisition app 0 managers
              ++ (if bool_decide (n = length managers)
                  then serve_events rt env v certfile_path keyfile_path else [])
              ++ zip_with EvExit (rev (seq 0 n)) excs.
Proof.
  intros managers n w'.
  destruct (lifespan_run rt app env v certfile_path keyfile_path w)
    as (excs & Hlen & Hw).
  fold managers n w' in Hlen, Hw. rewrite Hw. cbn [record trace].
  split; [|by exists excs].
  rewrite !exited_app, exited_acquisition, exited_exits.
  - destruct (bool_decide _); [rewrite exited_serve_events|]; done.
  - by rewrite length_rev, length_seq.
Qed.

(** ** The command as a whole *)

Lemma run_command_missing (rt : runtime) (o : Cli.options) (w : world) :
  UVICORN_INSTALLED rt = false ->
  run_command rt o w
  = (Raise (SystemExit 1), record [EvPrint uvicorn_missing] (with_flags o w)).
Proof.
  intros H. unfold run_command, when, bind, setenv, ret, with_flags, flag_environ.
  rewrite H. by destruct (Cli.debug o), (Cli.pdb o).
Qed.

Lemma ssl_files_run (rt : runtime) (v : Run.locals) (w : world) :
  ssl_files rt v w = (ssl_outcome rt v, record [ssl_event v] w).
Proof.
  unfold ssl_files, ssl_outcome, ssl_event.
  by destruct (Run.create_self_signed_cert v).
Qed.

Lemma run_command_installed (rt : runtime) (o : Cli.options) (w : world) :
  UVICORN_INSTALLED rt = true ->
  run_command rt o w
  = match load_env o (with_flags o w) with
    | (Raise e, w1) => (Raise e, w1)
    | (Return env, w1) =>
        let v := resolve env o in
        match ssl_outcome rt v with
        | Raise e => (Raise e, record [ssl_event v] w1)
        | Return paths =>
            with_server_lifespan (Env.app env) (serve rt env v paths.1 paths.2)
              (record [ssl_event v; EvRule "[yellow]Starting server process";
                       EvShowAppInfo] w1)
        end
    end.
Proof.
  intros H.
  assert (run_command rt o w
          = (env <-! load_env o ;;
             let v := resolve env o in
             paths <-! ssl_files rt v ;;
             emit (EvRule "[yellow]Starting server process") ;;
             emit EvShowAppInfo ;;
             with_server_lifespan (Env.app env) (serve rt env v paths.1 paths.2))
              (with_flags o w)) as ->.
  { unfold run_command, when, bind at 1 2, setenv, ret, with_flags, flag_environ.
    rewrite H. destruct w. by destruct (Cli.debug o), (Cli.pdb o). }
  unfold try_ at 1, bind at 1.
  destruct (load_env o (with_flags o w)) as [[env|e] w1]; [|done].
  cbn zeta. unfold try_, bind at 1. rewrite ssl_files_run.
  destruct (ssl_outcome rt (resolve env o)) as [paths|e]; [|done].
  unfold bind, emit, record. cbn. by rewrite <- !app_assoc.
Qed.

Lemma load_env_run (o : Cli.options) (w : world) :
  load_env o w
  = match obj w with
    | Callable call =>
        match call (environ w) with
        | Return env => (Return env, with_obj (Resolved env) (record [EvCtxObjCall] w))
        | Raise e => (Raise e, record [EvCtxObjCall] w)
        end
    | Resolved env =>
        (Return (write_flags o env), with_obj (Resolved (write_flags o env)) w)
    end.
Proof.
  unfold load_env, bind, get_obj, get_environ, emit, set_obj, ret.
  destruct (obj w) as [call|env]; [|done]. cbn.
  by destruct (call (environ w)).
Qed.

(** C9: without uvicorn the command prints its message and exits with
    status 1; [ctx.obj] is neither called nor written, no TLS helper runs, no
    lifespan manager is entered and no server is launched. *)
Theorem C9_uvicorn_missing (rt : runtime) (o : Cli.options) (w : world) :
  UVICORN_INSTALLED rt = false ->
  let out := run_command rt o w in
  out.1 = Raise (SystemExit 1)
  /\ trace out.2 = trace w ++ [EvPrint uvicorn_missing]
  /\ obj out.2 = obj w.
Proof. intros H out. subst out. by rewrite run_command_missing. Qed.

(** Projections of a trace that ignore the calls of the lifespan supervisor
    and of the launch see nothing in what they record. *)
Lemma omap_acquisition {B} (f : event -> option B) (app : App.Litestar)
    (managers : list App.manager) (i : nat) :
  (forall j, f (EvManagerCall j) = None) ->
  (forall j, f (EvEnter j) = None) ->
  omap f (acquisition app i managers) = [].
Proof.
  intros Hcall Henter. revert i.
  induction managers as [|m rest IH]; intros i; [done|].
  cbn [acquisition]. rewrite !omap_app.
  destruct (acquirable app m); [rewrite (IH (S i))|];
    destruct m, (scoped_resource app _); cbn; by rewrite ?Hcall, ?Henter.
Qed.

Lemma omap_exits {B} (f : event -> option B) (positions : list nat)
    (excs : list (option exn)) :
  (forall j exc, f (EvExit j exc) = None) ->
  omap f (zip_with EvExit positions excs) = [].
Proof.
  intros Hexit. revert excs.
  induction positions as [|j positions IH]; intros [|exc excs]; try done.
  cbn. by rewrite Hexit, IH.
Qed.

Lemma omap_serve_events {B} (f : event -> option B) (rt : runtime)
    (env : Env.LitestarEnv) (v : Run.locals)
    (certfile_path keyfile_path : option string) :
  (forall msg, f (EvPrint msg) = None) ->
  (forall kwargs, f (EvUvicornRun kwargs) = None) ->
  (forall argv, f (EvSubprocessRun argv) = None) ->
  omap f (serve_events rt env v certfile_path keyfile_path) = [].
Proof.
  intros Hprint Hdirect Hchild. unfold serve_events.
  destruct (bool_decide _ && negb _); cbn; [by rewrite Hdirect|].
  destruct (tracing rt); cbn; by rewrite ?Hprint, Hchild.
Qed.

Lemma launches_supervised (rt : runtime) (env : Env.LitestarEnv) (v : Run.locals)
    (paths : option string * option string) (excs : list (option exn)) :
  let managers := App._server_lifespan_managers (Env.app env) in
  launches (supervised rt env v paths excs)
  = if bool_decide (acquired (Env.app env) managers = length managers)
    then [if bool_decide (Run.workers v = Some 1) && negb (truthy (Run.reload v))
          then Direct else Subprocess]
    else [].
Proof.
  intros managers. unfold supervised, launches. fold managers.
  rewrite !omap_app, omap_acquisition, omap_exits by done.
  rewrite app_nil_r. cbn [app].
  destruct (bool_decide (_ = length _)); [apply launches_serve_events|done].
Qed.

Lemma ctx_obj_calls_supervised (rt : runtime) (env : Env.LitestarEnv)
    (v : Run.locals) (paths : option string * option string)
    (excs : list (option exn)) :
  ctx_obj_calls (supervised rt env v paths excs) = 0%nat.
Proof.
  unfold supervised, ctx_obj_calls.
  rewrite !omap_app, omap_acquisition, omap_exits by done.
  destruct (bool_decide _); [by rewrite omap_serve_events|done].
Qed.

(** The three ways a run with uvicorn goes on once the flags are in the
    process environment: [ctx.obj()] raises; the TLS helper raises; or the
    lifespan supervisor takes over. *)
Lemma run_command_shape (rt : runtime) (o : Cli.options) (w : world) :
  UVICORN_INSTALLED rt = true ->
  match load_env o (with_flags o w) with
  | (Raise e, w1) => run_command rt o w = (Raise e, w1)
  | (Return env, w1) =>
      let v := resolve env o in
      match ssl_outcome rt v with
      | Raise e => run_command rt o w = (Raise e, record [ssl_event v] w1)
      | Return paths =>
          exists excs,
            length excs
            = acquired (Env.app env) (App._server_lifespan_managers (Env.app env))
            /\ (run_command rt o w).2
               = record ([ssl_event v; EvRule "[yellow]Starting server process";
                          EvShowAppInfo] ++ supervised rt env v paths excs) w1
      end
  end.
Proof.
  intros H. rewrite (run_command_installed rt o w H).
  destruct (load_env o (with_flags o w)) as [[env|e] w1]; [|done].
  cbn zeta. destruct (ssl_outcome rt (resolve env o)) as [paths|e]; [|done].
  match goal with |- context [with_server_lifespan ?a (serve rt env ?v ?c ?k) ?w0] =>
    destruct (lifespan_run rt a env v c k w0) as (excs & Hlen & ->) end.
  exists excs. split; [done|]. by rewrite record_record.
Qed.

Lemma child_argv_forwards (rt : runtime) (env : Env.LitestarEnv) (v : Run.locals)
    (certfile_path keyfile_path : option string) :
  forwards_bind_options v
    (EvSubprocessRun (child_argv rt env v certfile_path keyfile_path)).
Proof.
  unfold forwards_bind_options, child_argv. rewrite process_args_tokens.
  repeat split.
  - intros h ->. rewrite !elem_of_app. right. right. left. apply list_elem_of_here.
  - intros p ->. rewrite !elem_of_app. do 3 right. left. apply list_elem_of_here.
  - intros n ->. rewrite !elem_of_app. do 6 right. left. apply list_elem_of_here.
  - intros s ->. rewrite !elem_of_app. do 7 right. left. apply list_elem_of_here.
Qed.

(** What serving records ends with the launch, which carries the bind
    options; only the debugger warning can come before it. *)
Lemma serve_events_forward (rt : runtime) (env : Env.LitestarEnv) (v : Run.locals)
    (certfile_path keyfile_path : option string) :
  exists pre launch,
    serve_events rt env v certfile_path keyfile_path = pre ++ [launch]
    /\ launches pre = []
    /\ forwards_bind_options v launch.
Proof.
  unfold serve_events. destruct (bool_decide _ && negb _).
  - exists [], (EvUvicornRun (direct_kwargs env v certfile_path keyfile_path)).
    by repeat split.
  - eexists _, _. split; [done|]. split; [by destruct (tracing rt)|].
    apply child_argv_forwards.
Qed.

(** C4 (as stated): with both a file descriptor and a unix socket given, on
    top of the host and port that are always set, no [ConfigurationError] is
    raised and the server is launched all the same. *)
Lemma C4_bind_options_counterexample :
  bind_modes (resolve (Sample.env (Sample.app [])) Sample.fd_and_uds) = 3%nat
  /\ ~ spec_launch_aborted
         (Sample.world0 (Resolved (Sample.env (Sample.app []))))
         (run_command Sample.server Sample.fd_and_uds
            (Sample.world0 (Resolved (Sample.env (Sample.app []))))).
Proof.
  split; [reflexivity|]. intros [_ H]. vm_compute in H. discriminate H.
Qed.

(** C4 (amended): [run_command] does not look at how many bind options are
    set.  Once the context object is loaded, what follows depends on the TLS
    helper and on the lifespan managers only.  When the TLS helper raises,
    its error ends the run before any lifespan manager is entered or any
    server launched.  When it returns and a lifespan manager is not
    acquired, the run ends with an exception and no server is launched.
    When it returns and every lifespan manager is acquired, the server is
    launched exactly once, and the launch carries host, port, fd and uds as
    resolved: as keyword arguments of [uvicorn.run], or as the [--host=],
    [--port=], [--fd=] and [--uds=] tokens of the child, whatever
    combination of them is set. *)
Theorem C4_bind_options_unchecked (rt : runtime) (o : Cli.options) (w w1 : world)
    (env : Env.LitestarEnv) :
  UVICORN_INSTALLED rt = true ->
  load_env o (with_flags o w) = (Return env, w1) ->
  let v := resolve env o in
  let managers := App._server_lifespan_managers (Env.app env) in
  let out := run_command rt o w in
  match ssl_outcome rt v with
  | Raise e => out = (Raise e, record [ssl_event v] w1)
  | Return paths =>
      (exists excs,
          trace out.2
          = trace w1 ++ [ssl_event v; EvRule "[yellow]Starting server process";
                         EvShowAppInfo] ++ supervised rt env v paths excs)
      /\ launches (trace out.2)
         = launches (trace w1)
             ++ (if bool_decide (acquired (Env.app env) managers = length managers)
                 then [if bool_decide (Run.workers v = Some 1)
                          && negb (truthy (Run.reload v))
                       then Direct else Subprocess]
                 else [])
      /\ (if bool_decide (acquired (Env.app env) managers = length managers)
          then exists before launch after,
                 trace out.2 = trace w1 ++ before ++ launch :: after
                 /\ launches before = []
                 /\ launches after = []
                 /\ forwards_bind_options v launch
          else exists e, out.1 = Raise e)
  end.
Proof.
  intros H Hload v managers out. subst out.
  pose proof (run_command_shape rt o w H) as Hrun.
  pose proof (run_command_installed rt o w H) as Hout.
  rewrite Hload in Hrun, Hout. cbn zeta in Hrun, Hout. fold v in Hrun, Hout.
  destruct (ssl_outcome rt v) as [paths|e]; [|done].
  destruct Hrun as (excs & _ & Hw). rewrite Hw. cbn [record trace].
  split; [by exists excs|]. split.
  { rewrite launches_app. f_equal.
    change (?a :: ?b :: ?c :: ?l) with ([a; b; c] ++ l).
    rewrite launches_app, launches_supervised.
    unfold ssl_event. by destruct (Run.create_self_signed_cert v). }
  fold managers. destruct (bool_decide_reflect
                             (acquired (Env.app env) managers = length managers))
    as [Hall|Hall].
  - destruct (serve_events_forward rt env v paths.1 paths.2)
      as (pre & launch & Hserve & Hpre & Hlaunch).
    unfold supervised. fold managers. rewrite bool_decide_eq_true_2 by done.
    rewrite Hserve.
    exists ([ssl_event v; EvRule "[yellow]Starting server process"; EvShowAppInfo]
              ++ acquisition (Env.app env) 0 managers ++ pre),
      launch, (zip_with EvExit (rev (seq 0 (acquired (Env.app env) managers))) excs).
    split; [by rewrite <- !app_assoc|]. split; [|split; [|done]].
    + unfold launches in Hpre |- *.
      rewrite !omap_app, omap_acquisition, Hpre by done.
      unfold ssl_event. by destruct (Run.create_self_signed_cert v).
    + unfold launches. by apply omap_exits.
  - rewrite Hout. by apply lifespan_setup_fails.
Qed.

(** [litestar run --fd 3 --uds /tmp/uvicorn.sock] launches the server in
    process, with both the descriptor and the socket among the keyword
    arguments. *)
Lemma C4_bind_options_unchecked_witness :
  launches (trace (run_command Sample.server Sample.fd_and_uds
                     (Sample.world0 (Resolved (Sample.env (Sample.app []))))).2)
  = [Direct]
  /\ exists before launch after,
       trace (run_command Sample.server Sample.fd_and_uds
                (Sample.world0 (Resolved (Sample.env (Sample.app []))))).2
       = before ++ launch :: after
       /\ launches before = []
       /\ launches after = []
       /\ forwards_bind_options
            (resolve (Sample.env (Sample.app [])) Sample.fd_and_uds) launch.
Proof.
  pose proof (C4_bind_options_unchecked Sample.server Sample.fd_and_uds
                (Sample.world0 (Resolved (Sample.env (Sample.app []))))
                (Sample.world0 (Resolved (Sample.env (Sample.app []))))
                (Sample.env (Sample.app [])) eq_refl eq_refl) as H.
  cbn zeta in H. exact (proj2 H).
Defined.

(** C8: when the child exits with a non-zero status,
    [_run_uvicorn_in_subprocess] raises [CalledProcessError] with that status
    (the specification's LaunchError), having started the child once. *)
Theorem C8_child_failure (rt : runtime) (env : Env.LitestarEnv)
    (host : option string) (port workers : option Z) (reload : option bool)
    (reload_dirs : option (list string)) (fd : option Z)
    (uds certfile_path keyfile_path : option string) (w : world) :
  let argv := [sys_executable rt; "-m"; "uvicorn"; Env.app_path env]
                ++ _convert_uvicorn_args
                     (process_args env host port workers reload reload_dirs fd uds
                                   certfile_path keyfile_path) in
  let returncode := child_returncode rt argv (environ w) in
  returncode <> 0 ->
  let out := _run_uvicorn_in_subprocess rt env host port workers reload reload_dirs
               fd uds certfile_path keyfile_path w in
  out.1 = Raise (CalledProcessError returncode argv)
  /\ trace out.2 = trace w ++ [EvSubprocessRun argv]
  /\ launches (trace out.2) = launches (trace w) ++ [Subprocess].
Proof.
  intros argv returncode Hrc out. subst out.
  unfold _run_uvicorn_in_subprocess, subprocess_run_check, bind, emit, get_environ, ret.
  fold argv. cbn [fst snd trace environ]. fold returncode.
  destruct (Z.eqb_spec returncode 0) as [Heq|_]; [done|].
  split; [done|]. split; [done|]. by rewrite launches_app.
Qed.

(** Four workers and a child that exits with status 3. *)
Lemma C8_child_failure_witness :
  (_run_uvicorn_in_subprocess Sample.failing_server (Sample.env (Sample.app []))
     (Some "127.0.0.1") (Some 8000) (Some 4) (Some false) (Some []) None None
     None None (Sample.world0 (Resolved (Sample.env (Sample.app []))))).1
  = Raise (CalledProcessError 3
             ["python"; "-m"; "uvicorn"; "app:app"; "--host=127.0.0.1";
              "--port=8000"; "--workers=4"]).
Proof.
  refine (proj1 (C8_child_failure Sample.failing_server (Sample.env (Sample.app []))
                   (Some "127.0.0.1") (Some 8000) (Some 4) (Some false) (Some [])
                   None None None None
                   (Sample.world0 (Resolved (Sample.env (Sample.app [])))) _)).
  vm_compute. discriminate.
Defined.

(** [litestar run --debug --pdb] on a machine without uvicorn. *)
Lemma C9_uvicorn_missing_witness :
  (run_command Sample.no_uvicorn Sample.debugging (Sample.world0 Sample.loader)).1
  = Raise (SystemExit 1)
  /\ trace (run_command Sample.no_uvicorn Sample.debugging
              (Sample.world0 Sample.loader)).2
     = [EvPrint uvicorn_missing]
  /\ obj (run_command Sample.no_uvicorn Sample.debugging
            (Sample.world0 Sample.loader)).2
     = Sample.loader.
Proof.
  exact (C9_uvicorn_missing Sample.no_uvicorn Sample.debugging
           (Sample.world0 Sample.loader) eq_refl).
Defined.

(** ** The merge of the environment with the command line *)

(** C5 (as stated): for the TLS certificate the command line flag wins over
    the value of the context object, not the other way round. *)
Lemma C5_priority_counterexample :
  Run.ssl_certfile (resolve Sample.tls_env Sample.tls_flags) = Some "cli-cert.pem"
  /\ Run.ssl_certfile (resolve Sample.tls_env Sample.tls_flags)
     <> spec_priority (Env.certfile_path Sample.tls_env)
                      (Cli.ssl_certfile Sample.tls_flags).
Proof. split; [reflexivity|]. vm_compute. discriminate. Qed.

(** C5 (amended): host, uds, worker count and reload directories take the
    value of the context object when it is true (not [None], not empty, not
    zero) and the command line value otherwise; port and fd take the value of
    the context object when it is not [None] and the command line value
    otherwise; the TLS certificate and key paths take the command line value
    when it is true and the value of the context object otherwise.  The
    command line values carry the defaults. *)
Theorem C5_resolution_priority (env : Env.LitestarEnv) (o : Cli.options) :
  let v := resolve env o in
  Run.host v = first_set truthy [Env.host env] (Some (Cli.host o))
  /\ Run.port v = first_set not_none [Env.port env] (Some (Cli.port o))
  /\ Run.fd v = first_set not_none [Env.fd env] (Cli.fd o)
  /\ Run.uds v = first_set truthy [Env.uds env] (Cli.uds o)
  /\ Run.workers v = first_set truthy [Env.web_concurrency env] (Some (Cli.wc o))
  /\ Run.reload_dirs v
     = first_set truthy [Env.reload_dirs env] (Some (Cli.reload_dir o))
  /\ Run.ssl_certfile v = first_set truthy [Cli.ssl_certfile o] (Env.certfile_path env)
  /\ Run.ssl_keyfile v = first_set truthy [Cli.ssl_keyfile o] (Env.keyfile_path env).
Proof.
  cbn. unfold or_, if_not_none.
  by destruct (Env.port env), (Env.fd env).
Qed.

Lemma debug_flag_environ (o : Cli.options) (environ : gmap string string) :
  debug_flag (flag_environ o environ) = Cli.debug o || debug_flag environ.
Proof.
  unfold debug_flag, flag_environ.
  destruct (Cli.debug o), (Cli.pdb o); cbn [orb];
    rewrite ?(lookup_insert_ne _ "LITESTAR_PDB" "LITESTAR_DEBUG") by done;
    by rewrite ?lookup_insert_eq.
Qed.

Lemma write_flags_attrs (o : Cli.options) (env : Env.LitestarEnv) :
  write_flags o env
  = Env.with_app env
      {| App.state :=
           {| App.debug := App.debug (App.state (Env.app env)) || Cli.debug o;
              App.pdb_on_exception :=
                App.pdb_on_exception (App.state (Env.app env)) || Cli.pdb o |};
         App._server_lifespan_managers :=
           App._server_lifespan_managers (Env.app env) |}.
Proof.
  unfold write_flags. destruct env as [? [[d p] ?] ? ? ? ? ? ? ? ? ? ? ?].
  destruct (Cli.debug o), (Cli.pdb o); cbn; by rewrite ?orb_true_r, ?orb_false_r.
Qed.

(** What the part of a run after [load_env] leaves alone. *)
Lemma run_command_context (rt : runtime) (o : Cli.options) (w : world) :
  UVICORN_INSTALLED rt = true ->
  exists evs,
    ctx_obj_calls evs = 0%nat
    /\ (run_command rt o w).2 = record evs (load_env o (with_flags o w)).2.
Proof.
  intros H. pose proof (run_command_shape rt o w H) as Hrun.
  destruct (load_env o (with_flags o w)) as [[env|e] w1].
  - cbn zeta in Hrun. destruct (ssl_outcome rt (resolve env o)) as [paths|e].
    + destruct Hrun as (excs & _ & ->). eexists. split; [|done].
      unfold ctx_obj_calls. change (?a :: ?b :: ?c :: ?l) with ([a; b; c] ++ l).
      rewrite omap_app, length_app.
      fold (ctx_obj_calls (supervised rt env (resolve env o) paths excs)).
      rewrite ctx_obj_calls_supervised. unfold ssl_event.
      by destruct (Run.create_self_signed_cert _).
    + rewrite Hrun. eexists. split; [|done]. unfold ssl_event.
      by destruct (Run.create_self_signed_cert _).
  - rewrite Hrun. exists []. split; [done|]. by rewrite record_nil.
Qed.

Lemma run_command_environ (rt : runtime) (o : Cli.options) (w : world) :
  environ (run_command rt o w).2 = flag_environ o (environ w).
Proof.
  destruct (UVICORN_INSTALLED rt) eqn:H.
  - destruct (run_command_context rt o w H) as (evs & _ & ->).
    rewrite load_env_run. cbn [record environ].
    destruct (obj (with_flags o w)) as [call|env]; [|done].
    by destruct (call _).
  - by rewrite run_command_missing.
Qed.

(** C6: the boolean flags are merged by disjunction.  [reload] is true when
    the context object, the command line flag, or the presence of reload
    directories from either source says so; [create_self_signed_cert] when
    the flag or the context object says so; the process-wide debug flag is on
    after the run when [--debug] was given or it was on before, and an
    application held by an already resolved context object is in debug mode
    when it was so before or [--debug] was given. *)
Theorem C6_boolean_flags (rt : runtime) (env : Env.LitestarEnv) (o : Cli.options)
    (w : world) :
  let v := resolve env o in
  let out := run_command rt o w in
  Run.reload v
  = Some (truthy (Env.reload env) || Cli.reload o || truthy (Run.reload_dirs v))
  /\ truthy (Run.reload_dirs v)
     = truthy (Env.reload_dirs env) || truthy (Cli.reload_dir o)
  /\ Run.create_self_signed_cert v
     = Cli.create_self_signed_cert o || Env.create_self_signed_cert env
  /\ debug_flag (environ out.2) = Cli.debug o || debug_flag (environ w)
  /\ (UVICORN_INSTALLED rt = true -> obj w = Resolved env ->
      exists env',
        obj out.2 = Resolved env'
        /\ App.debug (App.state (Env.app env'))
           = App.debug (App.state (Env.app env)) || Cli.debug o).
Proof.
  intros v out. subst v out.
  split.
  { cbn. unfold or_. destruct (Env.reload env) as [[]|]; cbn; try done;
      by destruct (Cli.reload o). }
  split.
  { cbn. unfold or_. by destruct (truthy (Env.reload_dirs env)) eqn:E; rewrite ?E. }
  split.
  { cbn. unfold or_, truthy, truthy_bool.
    by destruct (Cli.create_self_signed_cert o). }
  split.
  { rewrite run_command_environ. apply debug_flag_environ. }
  intros H Hobj.
  destruct (run_command_context rt o w H) as (evs & _ & ->).
  rewrite load_env_run. cbn [with_flags obj]. rewrite Hobj. cbn.
  exists (write_flags o env). split; [done|]. by rewrite write_flags_attrs.
Qed.

(** Counts the calls of [ctx.obj] in a trace that extends [trace w] by one
    known event and by events [evs] that hold none. *)
Ltac count_ctx_obj_calls Hevs :=
  cbn; unfold ctx_obj_calls in Hevs |- *;
  rewrite !omap_app, !length_app, Hevs; cbn; lia.

(** C10 (as stated): a callable context object is not called at all when
    uvicorn is missing, because the command exits before it looks at it. *)
Lemma C10_context_object_counterexample :
  ~ spec_called_once
      (Sample.world0 Sample.loader)
      (run_command Sample.no_uvicorn Sample.debugging (Sample.world0 Sample.loader)).
Proof. intros H. vm_compute in H. discriminate H. Qed.

(** C10 (amended): when uvicorn is installed, a callable context object is
    called exactly once, after the flags have been written to the process
    environment, and what it returns becomes the context object as it is:
    [--debug] and [--pdb] do not touch the application it holds.  A context
    object that is already resolved is not called, and its application gets
    [debug] and [pdb_on_exception] set under [--debug] and [--pdb]. *)
Theorem C10_context_object (rt : runtime) (o : Cli.options) (w : world) :
  UVICORN_INSTALLED rt = true ->
  let out := run_command rt o w in
  environ out.2 = flag_environ o (environ w)
  /\ match obj w with
     | Callable call =>
         ctx_obj_calls (trace out.2) = S (ctx_obj_calls (trace w))
         /\ match call (flag_environ o (environ w)) with
            | Return env => obj out.2 = Resolved env
            | Raise e => obj out.2 = obj w /\ out.1 = Raise e
            end
     | Resolved env =>
         ctx_obj_calls (trace out.2) = ctx_obj_calls (trace w)
         /\ obj out.2
            = Resolved
                (Env.with_app env
                   {| App.state :=
                        {| App.debug :=
                             App.debug (App.state (Env.app env)) || Cli.debug o;
                           App.pdb_on_exception :=
                             App.pdb_on_exception (App.state (Env.app env))
                             || Cli.pdb o |};
                      App._server_lifespan_managers :=
                        App._server_lifespan_managers (Env.app env) |})
     end.
Proof.
  intros H out. subst out. split; [apply run_command_environ|].
  destruct (run_command_context rt o w H) as (evs & Hevs & Hw).
  pose proof (run_command_shape rt o w H) as Hrun.
  rewrite Hw. rewrite load_env_run in Hw, Hrun |- *.
  cbn [with_flags obj environ] in Hw, Hrun |- *.
  destruct (obj w) as [call|env] eqn:Hobj.
  - destruct (call (flag_environ o (environ w))) as [env|e].
    + split; [count_ctx_obj_calls Hevs|done].
    + split; [count_ctx_obj_calls Hevs|]. split; [done|by rewrite Hrun].
  - split; [count_ctx_obj_calls Hevs|]. cbn. by rewrite write_flags_attrs.
Qed.

(** [litestar run --debug --pdb] with a context object that is still to be
    loaded: one call, and the application as the loader made it. *)
Lemma C10_context_object_witness :
  obj (run_command Sample.server Sample.debugging (Sample.world0 Sample.loader)).2
  = Resolved (Sample.env (Sample.app []))
  /\ ctx_obj_calls
       (trace (run_command Sample.server Sample.debugging
                 (Sample.world0 Sample.loader)).2)
     = 1%nat.
Proof.
  pose proof (C10_context_object Sample.server Sample.debugging
                (Sample.world0 Sample.loader) eq_refl) as H.
  cbn zeta in H. destruct H as [_ H].
  cbn [obj Sample.world0 Sample.loader] in H. destruct H as [Hcalls Hobj].
  split; [exact Hobj|exact Hcalls].
Defined.

(** The lifespan example of the specification: with managers A, B and C,
    a server that raises and a release of B that raises, the releases are
    C, B, A, and the exception of B is the one that leaves the command. *)
Example lifespan_abc :
  let out := run_command Sample.failing_server Sample.defaults
               (Sample.world0 (Resolved (Sample.env Sample.abc))) in
  exited (trace out.2) = [2; 1; 0]%nat /\ out.1 = Raise (Exception "B").
Proof. split; reflexivity. Qed.

(** The end-to-end example of the specification: [--port 9000
    --web-concurrency 4] runs a child whose arguments hold [--port=9000] and
    [--workers=4] and no [--reload]. *)
Example run_port_9000_workers_4 :
  let o := {| Cli.reload := false; Cli.port := 9000; Cli.wc := 4;
              Cli.host := "127.0.0.1"; Cli.fd := None; Cli.uds := None;
              Cli.debug := false; Cli.reload_dir := []; Cli.pdb := false;
              Cli.ssl_certfile := None; Cli.ssl_keyfile := None;
              Cli.create_self_signed_cert := false |} in
  trace (run_command Sample.server o
           (Sample.world0 (Resolved (Sample.env (Sample.app []))))).2
  = [EvValidateSsl None None; EvRule "[yellow]Starting server process";
     EvShowAppInfo;
     EvSubprocessRun ["python"; "-m"; "uvicorn"; "app:app"; "--host=127.0.0.1";
                      "--port=9000"; "--workers=4"]].
Proof. reflexivity. Qed.

(** * Further properties *)

(** ** What leaves the lifespan supervisor *)

Lemma exit_loop_received (cbs : exit_callbacks) (l : exit_locals) (w : world) :
  received_exc (exit_loop cbs l w).1 = received_exc l.
Proof.
  revert l w. induction cbs as [|[i cm] cbs IH]; intros l w; [done|].
  cbn [exit_loop]. unfold bind at 1. rewrite emit_run.
  destruct (__exit__ cm (exc_details l)) as [[]|e]; by rewrite IH.
Qed.

Lemma exit_loop_app (cbs1 cbs2 : exit_callbacks) (l : exit_locals) (w : world) :
  exit_loop (cbs1 ++ cbs2) l w
  = exit_loop cbs2 (exit_loop cbs1 l w).1 (exit_loop cbs1 l w).2.
Proof.
  revert l w. induction cbs1 as [|[i cm] cbs1 IH]; intros l w; [done|].
  cbn [exit_loop app]. unfold bind. rewrite !emit_run.
  destruct (__exit__ cm (exc_details l)) as [[]|e]; by rewrite IH.
Qed.

Lemma exit_loop_passive (cbs : exit_callbacks) (l : exit_locals) (w : world) :
  Forall (fun cb => passive cb.2) cbs -> (exit_loop cbs l w).1 = l.
Proof.
  intros H. revert l w. induction H as [|[i cm] cbs Hcm _ IH]; intros l w; [done|].
  cbn [exit_loop]. unfold bind at 1. rewrite emit_run.
  cbn in Hcm. by rewrite Hcm, IH.
Qed.

Lemma ExitStack_exit_passive (cbs : exit_callbacks) (exc : option exn) (w : world) :
  Forall (fun cb => passive cb.2) cbs -> (ExitStack_exit cbs exc w).1 = Return false.
Proof.
  intros H. unfold ExitStack_exit, bind, ret.
  match goal with |- context [exit_loop cbs ?l w] =>
    pose proof (exit_loop_passive cbs l w H) as Hl;
    destruct (exit_loop cbs l w) as [l' w'] end.
  cbn in Hl. subst l'. cbn. by rewrite andb_false_r.
Qed.

(** The callback called last decides when it swallows or raises. *)
Lemma ExitStack_exit_last_swallowing (cbs : exit_callbacks) (i : nat)
    (cm : context_manager) (exc : option exn) (w : world) :
  swallowing cm ->
  (ExitStack_exit (cbs ++ [(i, cm)]) exc w).1 = Return (bool_decide (is_Some exc)).
Proof.
  intros H. unfold ExitStack_exit, bind at 1, ret.
  rewrite exit_loop_app.
  match goal with |- context [exit_loop cbs ?l w] =>
    pose proof (exit_loop_received cbs l w) as Hl;
    destruct (exit_loop cbs l w) as [l' w'] end.
  cbn in Hl. cbn [fst snd exit_loop]. unfold bind, ret. rewrite emit_run, H.
  cbn. by rewrite Hl, andb_true_r.
Qed.


Lemma enter_managers_suffix (app : App.Litestar) (managers : list App.manager)
    (i : nat) (cbs : exit_callbacks) (w : world) :
  exists new, (enter_managers app i managers cbs w).1.2 = new ++ cbs.
Proof.
  revert i cbs w. induction managers as [|m rest IH]; intros i cbs w.
  - by exists [].
  - cbn [enter_managers].
    destruct m as [cm|call]; unfold bind, ret, enter_context, emit.
    + destruct (__enter__ cm) as [e|]; [by exists []|]. cbn.
      match goal with |- context [enter_managers app (S i) rest ?c ?w'] =>
        destruct (IH (S i) c w') as [new ->] end.
      exists (new ++ [(i, cm)]). by rewrite <- app_assoc.
    + destruct (call (App.state app)) as [e|[cm|]]; [by exists []| |by exists []].
      destruct (__enter__ cm) as [e|]; [by exists []|]. cbn.
      match goal with |- context [enter_managers app (S i) rest ?c ?w'] =>
        destruct (IH (S i) c w') as [new ->] end.
      exists (new ++ [(i, cm)]). by rewrite <- app_assoc.
Qed.

Lemma enter_managers_passive (app : App.Litestar) (managers : list App.manager)
    (i : nat) (cbs : exit_callbacks) (w : world) :
  Forall (well_behaved app) managers ->
  Forall (fun cb => passive cb.2) cbs ->
  (enter_managers app i managers cbs w).1.1 = None
  /\ Forall (fun cb => passive cb.2) (enter_managers app i managers cbs w).1.2.
Proof.
  intros H. revert i cbs w.
  induction H as [|m rest (cm & Hcm & Henter & Hexit) _ IH]; intros i cbs w Hcbs;
    [done|].
  cbn [enter_managers].
  destruct m as [cm'|call]; cbn in Hcm; unfold bind, ret, enter_context, emit.
  - injection Hcm as ->. rewrite Henter. apply IH. by constructor.
  - destruct (call (App.state app)) as [e|o]; [done|]. subst o.
    rewrite Henter. apply IH. by constructor.
Qed.

(** Managers that let exceptions through do not change how the block ends. *)
Lemma lifespan_passive (rt : runtime) (app : App.Litestar)
    (env : Env.LitestarEnv) (v : Run.locals)
    (certfile_path keyfile_path : option string) (w : world) :
  Forall (well_behaved app) (App._server_lifespan_managers app) ->
  (with_server_lifespan app (serve rt env v certfile_path keyfile_path) w).1
  = serve_outcome rt env v certfile_path keyfile_path (environ w).
Proof.
  intros H. unfold with_server_lifespan, bind.
  destruct (enter_managers_passive app (App._server_lifespan_managers app) 0 [] w H)
    as [Hexc Hcbs]; [constructor|].
  destruct (enter_managers_run app (App._server_lifespan_managers app) 0 [] w)
    as (exc & cbs & Heq & _ & _).
  rewrite Heq in Hexc, Hcbs |- *. cbn in Hexc, Hcbs. subst exc.
  rewrite serve_run.
  match goal with |- context [ExitStack_exit cbs ?x ?w'] =>
    pose proof (ExitStack_exit_passive cbs x w' Hcbs) as Hr;
    destruct (ExitStack_exit cbs x w') as [r w1] end.
  cbn in Hr |- *. subst r.
  by destruct (serve_outcome _ _ _ _ _ _) as [[]|e].
Qed.

(** X1: lifespan managers that are all acquired and whose [__exit__] lets
    exceptions through are transparent: the block of the [with] statement
    ends exactly as the server strategy ended. *)
Theorem lifespan_transparent (rt : runtime) (app : App.Litestar)
    (env : Env.LitestarEnv) (v : Run.locals)
    (certfile_path keyfile_path : option string) (w : world) :
  Forall (well_behaved app) (App._server_lifespan_managers app) ->
  (with_server_lifespan app (serve rt env v certfile_path keyfile_path) w).1
  = serve_outcome rt env v certfile_path keyfile_path (environ w).
Proof. apply lifespan_passive. Qed.

Lemma lifespan_transparent_witness :
  (with_server_lifespan (Sample.app [App.Prepared Sample.quiet])
     (serve Sample.failing_server (Sample.env (Sample.app []))
        (resolve (Sample.env (Sample.app [])) Sample.defaults) None None)
     (Sample.world0 (Resolved (Sample.env (Sample.app []))))).1
  = Raise (Exception "server").
Proof.
  refine (lifespan_transparent Sample.failing_server
            (Sample.app [App.Prepared Sample.quiet]) (Sample.env (Sample.app []))
            (resolve (Sample.env (Sample.app [])) Sample.defaults) None None
            (Sample.world0 (Resolved (Sample.env (Sample.app [])))) _).
  repeat constructor. exists Sample.quiet. repeat split.
Defined.

(** A manager that stands for a context manager whose [__enter__] returns is
    acquired, and the loop goes on with its callback registered. *)
Lemma enter_managers_acquired (app : App.Litestar) (m : App.manager)
    (cm : context_manager) (rest : list App.manager) (i : nat)
    (cbs : exit_callbacks) (w : world) :
  scoped_resource app m = Some cm ->
  __enter__ cm = None ->
  exists evs,
    enter_managers app i (m :: rest) cbs w
    = enter_managers app (S i) rest ((i, cm) :: cbs) (record evs w).
Proof.
  intros Hcm Henter. cbn [enter_managers].
  destruct m as [cm'|call]; cbn in Hcm; unfold bind, ret, enter_context, emit.
  - injection Hcm as ->. rewrite Henter. by exists [EvEnter i].
  - destruct (call (App.state app)) as [e|o]; [done|]. subst o. rewrite Henter.
    exists [EvManagerCall i; EvEnter i]. unfold record. cbn.
    by rewrite <- app_assoc.
Qed.

Lemma launches_lifespan (rt : runtime) (app : App.Litestar) (env : Env.LitestarEnv)
    (v : Run.locals) (certfile_path keyfile_path : option string) (w : world) :
  launches
    (trace (with_server_lifespan app (serve rt env v certfile_path keyfile_path) w).2)
  = launches (trace w)
      ++ (if bool_decide (acquired app (App._server_lifespan_managers app)
                          = length (App._server_lifespan_managers app))
          then [if bool_decide (Run.workers v = Some 1)
                   && negb (truthy (Run.reload v))
                then Direct else Subprocess]
          else []).
Proof.
  destruct (lifespan_run rt app env v certfile_path keyfile_path w)
    as (excs & _ & ->).
  cbn [record trace]. unfold launches.
  rewrite !omap_app, omap_acquisition, omap_exits by done.
  rewrite app_nil_r. f_equal.
  destruct (bool_decide (_ = length _)); [apply launches_serve_events|done].
Qed.

(** How the [with] statement ends in terms of the release of the manager
    registered first, which is called last. *)
Lemma with_outermost (rt : runtime) (app : App.Litestar) (m : App.manager)
    (cm : context_manager) (rest : list App.manager) (env : Env.LitestarEnv)
    (v : Run.locals) (certfile_path keyfile_path : option string) (w : world) :
  App._server_lifespan_managers app = m :: rest ->
  scoped_resource app m = Some cm ->
  __enter__ cm = None ->
  exists new w1,
    (acquired app (m :: rest) = length (m :: rest)
     /\ (with_server_lifespan app (serve rt env v certfile_path keyfile_path) w).1
        = match serve_outcome rt env v certfile_path keyfile_path (environ w) with
          | Return _ =>
              resumed (ExitStack_exit (new ++ [(0%nat, cm)]) None w1).1
          | Raise e =>
              thrown e (ExitStack_exit (new ++ [(0%nat, cm)]) (Some e) w1).1
          end)
    \/ exists e,
         acquired app (m :: rest) <> length (m :: rest)
         /\ (with_server_lifespan app (serve rt env v certfile_path keyfile_path) w).1
            = Raise (setup_failure e
                       (ExitStack_exit (new ++ [(0%nat, cm)]) (Some e) w1).1).
Proof.
  intros Hm Hcm Henter. unfold with_server_lifespan, bind. rewrite Hm.
  destruct (enter_managers_acquired app m cm rest 0 [] w Hcm Henter) as [evs ->].
  cbn [acquired length]. unfold acquirable. rewrite Hcm, Henter.
  match goal with |- context [enter_managers app 1 rest ?c ?w'] =>
    destruct (enter_managers_suffix app rest 1 c w') as [new Hnew];
    destruct (enter_managers_run app rest 1 c w') as (exc & cbs & Heq & _ & Hexc);
    rewrite Heq in Hnew |- * end.
  cbn in Hnew. subst cbs. destruct exc as [e|].
  - match goal with |- context [ExitStack_exit _ (Some e) ?w'] =>
      exists new, w' end.
    right. exists e. split.
    + intros Heq'. injection Heq' as Heq'. by apply Hexc in Heq'.
    + by destruct (ExitStack_exit _ _ _).
  - rewrite serve_run. cbn [environ record].
    match goal with |- context [ExitStack_exit _ _ ?w'] => exists new, w' end.
    left. split; [f_equal; by apply Hexc|].
    destruct (serve_outcome _ _ _ _ _ _) as [[]|e]; cbn [exc_of];
      by destruct (ExitStack_exit _ _ _).
Qed.

(** X2: when the manager registered first, given as a context manager or
    made by a factory, swallows exceptions, no failure of the server or of a
    later manager's release leaves the [with] statement, and the server is
    launched once; but a failure while acquiring a later manager, once
    swallowed, comes out as the [RuntimeError] of a generator that did not
    yield, and the server is not launched. *)
Theorem outermost_swallowing (rt : runtime) (app : App.Litestar) (m : App.manager)
    (cm : context_manager) (rest : list App.manager) (env : Env.LitestarEnv)
    (v : Run.locals) (certfile_path keyfile_path : option string) (w : world) :
  App._server_lifespan_managers app = m :: rest ->
  scoped_resource app m = Some cm ->
  __enter__ cm = None ->
  swallowing cm ->
  let out := with_server_lifespan app (serve rt env v certfile_path keyfile_path) w in
  if bool_decide (acquired app (m :: rest) = length (m :: rest))
  then out.1 = Return tt
       /\ launches (trace out.2)
          = launches (trace w)
              ++ [if bool_decide (Run.workers v = Some 1)
                     && negb (truthy (Run.reload v))
                  then Direct else Subprocess]
  else out.1 = Raise (RuntimeError "generator didn't yield")
       /\ launches (trace out.2) = launches (trace w).
Proof.
  intros Hm Hcm Henter Hsw out. subst out.
  rewrite launches_lifespan, Hm.
  destruct (with_outermost rt app m cm rest env v certfile_path keyfile_path w
              Hm Hcm Henter) as (new & w1 & [[Hall ->]|(e & Hne & ->)]).
  - rewrite bool_decide_eq_true_2 by done. split; [|done].
    destruct (serve_outcome _ _ _ _ _ _) as [[]|e];
      by rewrite ExitStack_exit_last_swallowing.
  - rewrite bool_decide_eq_false_2 by done.
    rewrite ExitStack_exit_last_swallowing by done. by rewrite app_nil_r.
Qed.


(** A first manager made by a factory swallows the failure of the second
    manager's [__enter__]: the run ends with the [RuntimeError]. *)
Lemma outermost_swallowing_witness :
  (with_server_lifespan
     (Sample.app [App.Factory (fun _ => App.Gives (Some Cases.swallower));
                  App.Prepared Cases.broken])
     (serve Sample.server (Sample.env (Sample.app []))
        (resolve (Sample.env (Sample.app [])) Sample.defaults) None None)
     (Sample.world0 (Resolved (Sample.env (Sample.app []))))).1
  = Raise (RuntimeError "generator didn't yield").
Proof.
  exact (proj1
           (outermost_swallowing Sample.server
              (Sample.app [App.Factory (fun _ => App.Gives (Some Cases.swallower));
                           App.Prepared Cases.broken])
              (App.Factory (fun _ => App.Gives (Some Cases.swallower)))
              Cases.swallower [App.Prepared Cases.broken]
              (Sample.env (Sample.app []))
              (resolve (Sample.env (Sample.app [])) Sample.defaults) None None
              (Sample.world0 (Resolved (Sample.env (Sample.app []))))
              eq_refl eq_refl eq_refl (fun _ => eq_refl))).
Defined.


Lemma rev_seq_S (n : nat) : rev (seq 0 (S n)) = n :: rev (seq 0 n).
Proof. by rewrite seq_S, rev_app_distr. Qed.

(** X4: when every manager was acquired, the manager acquired last is the
    first to be released, and its [__exit__] is given exactly what the server
    strategy ended with: its exception, or [None] when it returned. *)
Theorem innermost_exit_sees_server_outcome (rt : runtime) (app : App.Litestar)
    (env : Env.LitestarEnv) (v : Run.locals)
    (certfile_path keyfile_path : option string) (w : world) (n : nat) :
  let managers := App._server_lifespan_managers app in
  acquired app managers = length managers ->
  length managers = S n ->
  exists excs,
    trace (with_server_lifespan app (serve rt env v certfile_path keyfile_path) w).2
    = trace w
        ++ acquisition app 0 managers
        ++ serve_events rt env v certfile_path keyfile_path
        ++ EvExit n (exc_of (serve_outcome rt env v certfile_path keyfile_path
                               (environ w)))
           :: zip_with EvExit (rev (seq 0 n)) excs.
Proof.
  intros managers Hall Hlen. unfold with_server_lifespan, bind at 1. fold managers.
  destruct (enter_managers_run app managers 0 [] w)
    as (exc & cbs & -> & Hcbs & Hexc).
  rewrite (proj2 Hexc Hall). rewrite Hall, Hlen, rev_seq_S in Hcbs.
  cbn [fmap list_fmap] in Hcbs. rewrite app_nil_r in Hcbs.
  destruct cbs as [|[i cm] cbs]; [done|]. cbn in Hcbs. injection Hcbs as -> Hcbs.
  unfold bind at 1. rewrite serve_run.
  unfold bind, ExitStack_exit, bind, ret.
  cbn [exit_loop]. unfold bind. rewrite emit_run.
  cbn [exc_details environ record].
  destruct (__exit__ cm _) as [[]|e];
    match goal with |- context [exit_loop cbs ?l ?w'] =>
      destruct (exit_loop_run cbs l w') as (excs & Hexcs & Hw);
      destruct (exit_loop cbs l w') as [l' w1] end;
    cbn in Hw; subst w1; exists excs; cbn; unfold fmap in Hcbs |- *;
    rewrite Hcbs, <- !app_assoc; done.
Qed.

Lemma innermost_exit_sees_server_outcome_witness :
  exists excs,
    trace (with_server_lifespan Sample.abc
             (serve Sample.failing_server (Sample.env Sample.abc)
                (resolve (Sample.env Sample.abc) Sample.defaults) None None)
             (Sample.world0 (Resolved (Sample.env Sample.abc)))).2
    = [EvEnter 0; EvManagerCall 1; EvEnter 1; EvEnter 2]
        ++ serve_events Sample.failing_server (Sample.env Sample.abc)
             (resolve (Sample.env Sample.abc) Sample.defaults) None None
        ++ EvExit 2 (Some (Exception "server"))
           :: zip_with EvExit [1; 0]%nat excs.
Proof.
  exact (innermost_exit_sees_server_outcome Sample.failing_server Sample.abc
           (Sample.env Sample.abc)
           (resolve (Sample.env Sample.abc) Sample.defaults) None None
           (Sample.world0 (Resolved (Sample.env Sample.abc))) 2 eq_refl eq_refl).
Defined.

(** ** The merge, the environment and the launch *)

(** X5: after the merge, host, port, worker count, reload and the reload
    directories are never [None], whatever the context object holds: the
    command line supplies a value whenever the context object does not. *)
Theorem resolve_never_none (env : Env.LitestarEnv) (o : Cli.options) :
  let v := resolve env o in
  is_Some (Run.host v) /\ is_Some (Run.port v) /\ is_Some (Run.workers v)
  /\ is_Some (Run.reload v) /\ is_Some (Run.reload_dirs v).
Proof.
  cbn. unfold or_, if_not_none.
  destruct (truthy (Env.host env)) eqn:Eh, (Env.port env),
    (truthy (Env.web_concurrency env)) eqn:Ew, (truthy (Env.reload env)) eqn:Er,
    (truthy (Env.reload_dirs env)) eqn:Ed.
  all: repeat split; try done.
  all: match goal with
       | E : truthy ?x = true |- is_Some ?x => by destruct x
       end.
Qed.

Lemma resolve_reload_dirs (env : Env.LitestarEnv) (o : Cli.options) :
  truthy (Env.reload_dirs env) = true \/ truthy (Cli.reload_dir o) = true ->
  Run.reload (resolve env o) = Some true
  /\ exists d dirs, Run.reload_dirs (resolve env o) = Some (d :: dirs).
Proof.
  intros H. cbn. unfold or_.
  destruct (Env.reload_dirs env) as [[|d dirs]|] eqn:Ee; cbn in H |- *.
  - destruct H as [?|H]; [done|]. destruct (Cli.reload_dir o) as [|d dirs]; [done|].
    split; [|by exists d, dirs].
    destruct (Env.reload env) as [[]|]; cbn; try done; by destruct (Cli.reload o).
  - split; [|by exists d, dirs].
    destruct (Env.reload env) as [[]|]; cbn; try done; by destruct (Cli.reload o).
  - destruct H as [?|H]; [done|]. destruct (Cli.reload_dir o) as [|d dirs]; [done|].
    split; [|by exists d, dirs].
    destruct (Env.reload env) as [[]|]; cbn; try done; by destruct (Cli.reload o).
Qed.

(** X6: naming a directory to watch, on the command line or in the context
    object, is enough to leave the in-process strategy: the server runs in a
    child whose arguments hold [--reload] and one [--reload-dir=] token for
    every directory. *)
Theorem reload_dirs_force_subprocess (rt : runtime) (env : Env.LitestarEnv)
    (o : Cli.options) (certfile_path keyfile_path : option string) (w : world) :
  truthy (Env.reload_dirs env) = true \/ truthy (Cli.reload_dir o) = true ->
  let v := resolve env o in
  launches (trace (serve rt env v certfile_path keyfile_path w).2)
  = launches (trace w) ++ [Subprocess]
  /\ "--reload" ∈ child_argv rt env v certfile_path keyfile_path
  /\ exists dirs,
       Run.reload_dirs v = Some dirs
       /\ dirs <> []
       /\ forall d, d ∈ dirs ->
            ("--reload-dir=" +:+ d) ∈ child_argv rt env v certfile_path keyfile_path.
Proof.
  intros H v. destruct (resolve_reload_dirs env o H) as (Hr & d0 & dirs & Hd).
  fold v in Hr, Hd. split.
  { rewrite serve_run. cbn [snd record trace].
    rewrite launches_app, launches_serve_events, Hr. cbn.
    by rewrite andb_false_r. }
  unfold child_argv. rewrite process_args_tokens, Hr, Hd.
  cbn [of_opt_bool convert_item truthy truthy_option truthy_tuple tokens_if
       of_opt_tuple].
  split; [rewrite !elem_of_app; right; left; apply list_elem_of_here|].
  exists (d0 :: dirs). split; [done|]. split; [done|].
  intros d Hin. rewrite !elem_of_app. right. do 7 right. left.
  rewrite <- list_fmap_compose. apply list_elem_of_fmap. by exists d.
Qed.

Lemma reload_dirs_force_subprocess_witness :
  "--reload-dir=docs"
  ∈ child_argv Sample.server (Sample.env (Sample.app []))
      (resolve (Sample.env (Sample.app [])) Cases.watching) None None.
Proof.
  destruct (reload_dirs_force_subprocess Sample.server (Sample.env (Sample.app []))
              Cases.watching None None
              (Sample.world0 (Resolved (Sample.env (Sample.app []))))
              (or_intror eq_refl)) as (_ & _ & dirs & Hdirs & _ & Hin).
  apply (Hin "docs"). injection Hdirs as <-.
  apply list_elem_of_further, list_elem_of_here.
Defined.

(** X7: with or without uvicorn, the command writes [LITESTAR_DEBUG] only
    under [--debug] and [LITESTAR_PDB] only under [--pdb], always as 1, and
    leaves every other variable of the process environment as it was. *)
Theorem environ_frame (rt : runtime) (o : Cli.options) (w : world) :
  let environ' := environ (run_command rt o w).2 in
  environ' !! "LITESTAR_DEBUG"
  = (if Cli.debug o then Some "1" else environ w !! "LITESTAR_DEBUG")
  /\ environ' !! "LITESTAR_PDB"
     = (if Cli.pdb o then Some "1" else environ w !! "LITESTAR_PDB")
  /\ forall k, k <> "LITESTAR_DEBUG" -> k <> "LITESTAR_PDB" ->
               environ' !! k = environ w !! k.
Proof.
  intros environ'. subst environ'. rewrite run_command_environ.
  unfold flag_environ.
  split; [|split; [|intros k Hd Hp]];
    destruct (Cli.debug o), (Cli.pdb o);
    rewrite ?lookup_insert_eq; try done;
    rewrite ?(lookup_insert_ne _ "LITESTAR_PDB" "LITESTAR_DEBUG") by done;
    rewrite ?(lookup_insert_ne _ "LITESTAR_DEBUG" "LITESTAR_PDB") by done;
    rewrite ?lookup_insert_eq; try done;
    by rewrite ?lookup_insert_ne by done.
Qed.

(** X8: the debugger warning is printed exactly when a tracer is installed
    and the server goes to a child process; the in-process strategy never
    prints it, and nothing else is printed while serving. *)
Theorem debugger_warning_printed (rt : runtime) (env : Env.LitestarEnv)
    (v : Run.locals) (certfile_path keyfile_path : option string) (w : world) :
  exists evs,
    trace (serve rt env v certfile_path keyfile_path w).2 = trace w ++ evs
    /\ (EvPrint debugger_warning ∈ evs
        <-> tracing rt = true
            /\ ~ (Run.workers v = Some 1 /\ truthy (Run.reload v) = false))
    /\ forall msg, EvPrint msg ∈ evs -> msg = debugger_warning.
Proof.
  rewrite serve_run. eexists. split; [done|]. unfold serve_events.
  destruct (bool_decide_reflect (Run.workers v = Some 1)) as [Hw|Hw];
    destruct (truthy (Run.reload v)) eqn:Hr, (tracing rt); cbn [andb negb app].
  all: split; [split; [intros Hin|intros [Ht Hn]]|intros msg Hin].
  all: rewrite ?elem_of_cons, ?elem_of_nil in *.
  all: try (destruct Hin as [Hin|[Hin|[]]]; try discriminate Hin).
  all: try (destruct Hin as [Hin|[]]; try discriminate Hin).
  all: try done.
  all: try (split; [done|]; intros [? ?]; congruence).
  all: try by injection Hin.
  all: try (destruct Hn; done).
  all: try by left.
Qed.

(** X9: when calling the context object raises, the command ends with that
    exception right after the call: no TLS helper runs, nothing is printed,
    no lifespan manager is entered and no server is launched; the flags are
    in the process environment all the same. *)
Theorem ctx_obj_failure (rt : runtime) (o : Cli.options) (w : world)
    (call : gmap string string -> result Env.LitestarEnv) (e : exn) :
  UVICORN_INSTALLED rt = true ->
  obj w = Callable call ->
  call (flag_environ o (environ w)) = Raise e ->
  run_command rt o w = (Raise e, record [EvCtxObjCall] (with_flags o w)).
Proof.
  intros H Hobj Hcall. rewrite (run_command_installed rt o w H), load_env_run.
  cbn [with_flags obj environ]. by rewrite Hobj, Hcall.
Qed.

Lemma ctx_obj_failure_witness :
  run_command Sample.server Sample.debugging (Sample.world0 Cases.failing_loader)
  = (Raise (Exception "no app"),
     record [EvCtxObjCall]
       (with_flags Sample.debugging (Sample.world0 Cases.failing_loader))).
Proof.
  exact (ctx_obj_failure Sample.server Sample.debugging
           (Sample.world0 Cases.failing_loader) _ _ eq_refl eq_refl eq_refl).
Defined.

(** ** The marshaller and assignments to the mapping *)

Lemma setitem_fresh {V} (k : string) (v : V) (d : dict V) :
  k ∉ keys d -> setitem k v d = d ++ [(k, v)].
Proof.
  induction d as [|[k' v'] d IH]; intros H; [done|].
  cbn in H |- *. apply not_elem_of_cons in H as [Hne H].
  destruct (String.eqb_spec k' k) as [->|_]; [done|]. by rewrite IH.
Qed.

Lemma setitem_replace {V} (k : string) (v v0 : V) (d1 d2 : dict V) :
  k ∉ keys d1 -> setitem k v (d1 ++ (k, v0) :: d2) = d1 ++ (k, v) :: d2.
Proof.
  induction d1 as [|[k' v'] d1 IH]; intros H.
  - cbn. by rewrite String.eqb_refl.
  - cbn in H |- *. apply not_elem_of_cons in H as [Hne H].
    destruct (String.eqb_spec k' k) as [->|_]; [done|]. by rewrite IH.
Qed.

(** X10: assigning a key the mapping does not hold yet puts its tokens after
    all the others, and assigning a key it already holds replaces the tokens
    of that key where they stand. *)
Theorem marshal_assignment (k : string) (v v0 : value) (d1 d2 : dict value) :
  k ∉ keys d1 ->
  _convert_uvicorn_args (setitem k v d1)
  = _convert_uvicorn_args d1 ++ convert_item k v
  /\ _convert_uvicorn_args (setitem k v (d1 ++ (k, v0) :: d2))
     = _convert_uvicorn_args d1 ++ convert_item k v ++ _convert_uvicorn_args d2.
Proof.
  intros H. rewrite setitem_fresh, setitem_replace by done.
  rewrite !convert_app, !convert_cons. cbn. by rewrite app_nil_r.
Qed.

Lemma marshal_assignment_witness :
  _convert_uvicorn_args
    (setitem "port" (VAtom (AInt 9000))
       ([("host", VAtom (AStr "::1"))]
          ++ ("port", VAtom (AInt 8000)) :: [("reload", VAtom (ABool true))]))
  = ["--host=::1"; "--port=9000"; "--reload"].
Proof.
  refine (proj2 (marshal_assignment "port" (VAtom (AInt 9000)) (VAtom (AInt 8000))
                   [("host", VAtom (AStr "::1"))]
                   [("reload", VAtom (ABool true))] _)).
  cbn. apply not_elem_of_cons. split; [discriminate|apply not_elem_of_nil].
Defined.

(** X11: every token names a key of the mapping: it is [--key] or starts
    with [--key=], so no value can put a token of another shape on the
    command line of the child. *)
Theorem tokens_name_keys (args : dict value) :
  Forall (fun token =>
            exists k, k ∈ keys args
                      /\ (token = "--" +:+ k
                          \/ exists val, token = "--" +:+ k +:+ "=" +:+ val))
         (_convert_uvicorn_args args).
Proof.
  induction args as [|[k v] args IH]; [constructor|].
  rewrite convert_cons. apply Forall_app. split.
  - destruct v as [[|[]|n|s]|items]; cbn; repeat constructor.
    + exists k. split; [by left|]. right. by exists "None".
    + exists k. split; [by left|]. by left.
    + exists k. split; [by left|]. right. by exists (pretty n).
    + exists k. split; [by left|]. right. by exists s.
    + apply Forall_forall. intros token (item & -> & _)%list_elem_of_fmap.
      exists k. split; [by left|]. right. by exists (str item).
  - eapply Forall_impl; [exact IH|]. intros token (k' & Hk' & Htoken).
    exists k'. split; [by right|done].
Qed.

(** ** The listing of the routes *)

Section Sorting.

Context {A : Type} (key : A -> string).

Let by_key (x y : A) : Prop := String.le (key x) (key y).

Lemma insort_Permutation (x : A) (l : list A) : Routes.insort key x l ≡ₚ x :: l.
Proof.
  induction l as [|y l IH]; [done|]. cbn.
  destruct (String.leb _ _); [done|]. by rewrite IH, Permutation_swap.
Qed.

Lemma sorted_Permutation (l : list A) : Routes.sorted key l ≡ₚ l.
Proof.
  induction l as [|x l IH]; [done|].
  cbn. by rewrite insort_Permutation, IH.
Qed.

Lemma insort_Sorted (x : A) (l : list A) :
  Sorted by_key l -> Sorted by_key (Routes.insort key x l).
Proof.
  induction l as [|y l IH]; intros Hl; [by repeat constructor|].
  cbn. destruct (String.leb (key x) (key y)) eqn:E.
  - constructor; [done|]. constructor. unfold by_key, String.le. by rewrite E.
  - apply Sorted_inv in Hl as [Hl Hy]. constructor; [by apply IH|].
    assert (by_key y x) as Hyx.
    { destruct (total String.le (key x) (key y)) as [H|H]; [|done].
      unfold String.le in H. by rewrite E in H. }
    destruct l as [|z l]; cbn; [by constructor|].
    destruct (String.leb (key x) (key z)); constructor; [done|].
    by apply HdRel_inv in Hy.
Qed.

Lemma sorted_Sorted (l : list A) : Sorted by_key (Routes.sorted key l).
Proof.
  induction l as [|x l IH]; [constructor|]. cbn. by apply insort_Sorted.
Qed.

Lemma insort_filter (p : string) (x : A) (l : list A) :
  filter (fun y => key y = p) (Routes.insort key x l)
  = filter (fun y => key y = p) (x :: l).
Proof.
  induction l as [|y l IH]; [done|]. cbn [Routes.insort].
  destruct (String.leb (key x) (key y)) eqn:E; [done|].
  rewrite (filter_cons _ y (Routes.insort key x l)), IH, !filter_cons.
  destruct (decide (key x = p)) as [Hx|Hx], (decide (key y = p)) as [Hy|Hy];
    try done.
  rewrite Hx, Hy in E. assert (String.le p p) as H by done.
  unfold String.le in H. by rewrite E in H.
Qed.

Lemma sorted_stable (p : string) (l : list A) :
  filter (fun y => key y = p) (Routes.sorted key l)
  = filter (fun y => key y = p) l.
Proof.
  induction l as [|x l IH]; [done|].
  cbn [Routes.sorted fold_right]. rewrite insort_filter, !(filter_cons _ x).
  fold (Routes.sorted key l). rewrite IH. done.
Qed.

Lemma NoDup_key_inj (l : list A) (x y : A) :
  NoDup (map key l) -> x ∈ l -> y ∈ l -> key x = key y -> x = y.
Proof.
  induction l as [|z l IH]; intros Hnd Hx Hy Hk; [by inversion Hx|].
  cbn in Hnd. apply NoDup_cons in Hnd as [Hz Hnd].
  apply elem_of_cons in Hx as [->|Hx]; apply elem_of_cons in Hy as [->|Hy];
    try done.
  - destruct Hz. rewrite Hk. apply (list_elem_of_fmap_2 key), Hy.
  - destruct Hz. rewrite <- Hk. apply (list_elem_of_fmap_2 key), Hx.
  - by apply IH.
Qed.

Lemma sorted_unique (l1 l2 : list A) :
  l1 ≡ₚ l2 -> NoDup (map key l1) -> Routes.sorted key l1 = Routes.sorted key l2.
Proof.
  intros Hperm Hnd.
  assert (Transitive by_key) as Htrans.
  { intros x y z. unfold by_key. apply transitivity. }
  apply (Sorted_unique_strong by_key); [|apply sorted_Sorted..|].
  - intros x y Hx Hy Hxy Hyx.
    rewrite sorted_Permutation in Hx. rewrite sorted_Permutation, <- Hperm in Hy.
    apply (NoDup_key_inj l1); [done..|]. by apply (anti_symm String.le).
  - by rewrite !sorted_Permutation.
Qed.

End Sorting.

Lemma fold_add {X} (f : X -> Routes.Tree) (l : list X) (b : Routes.Tree) :
  fold_left (fun b x => Routes.add b (f x)) l b
  = Routes.Node (Routes.label b) (Routes.children b ++ map f l).
Proof.
  revert b. induction l as [|x l IH]; intros [lbl c]; cbn.
  - by rewrite app_nil_r.
  - rewrite IH. cbn. by rewrite <- app_assoc.
Qed.

Lemma add_handler_lines (b : Routes.Tree) (h : Routes.handler) :
  Routes.add_handler b h
  = Routes.Node (Routes.label b) (Routes.children b ++ Routes.lines h).
Proof.
  unfold Routes.add_handler, Routes.lines.
  destruct (1 <? length (Routes.paths h))%nat; [|done].
  apply (fold_add (fun path => Routes.Node _ [])).
Qed.

Lemma fold_add_handler (handlers : list Routes.handler) (b : Routes.Tree) :
  fold_left Routes.add_handler handlers b
  = Routes.Node (Routes.label b)
                (Routes.children b ++ flat_map Routes.lines handlers).
Proof.
  revert b. induction handlers as [|h handlers IH]; intros [lbl c]; cbn.
  - by rewrite app_nil_r.
  - rewrite add_handler_lines, IH. cbn. by rewrite <- app_assoc.
Qed.

Lemma add_route_branch (t : Routes.Tree) (r : Routes.route) :
  Routes.add_route t r = Routes.add t (Routes.branch r).
Proof.
  destruct r as [p handlers|p h|p h]; cbn; [|done..].
  by rewrite fold_add_handler.
Qed.

Lemma routes_command_branches (routes : list Routes.route) :
  Routes.routes_command routes
  = Routes.Node "" (map Routes.branch (Routes.sorted Routes.path routes)).
Proof.
  unfold Routes.routes_command.
  assert (forall l t, fold_left Routes.add_route l t
                      = Routes.Node (Routes.label t)
                          (Routes.children t ++ map Routes.branch l)) as H.
  { induction l as [|r l IH]; intros [lbl c]; cbn.
    - by rewrite app_nil_r.
    - rewrite add_route_branch, IH. cbn. by rewrite <- app_assoc. }
  by rewrite H.
Qed.

(** X12: the listing has one branch per route of the application, headed by
    its path and kind; the branches come in ascending order of path, and
    routes with the same path stay in the order of [app.routes]. *)
Theorem routes_listed_by_path (routes : list Routes.route) :
  let listed := Routes.sorted Routes.path routes in
  map Routes.label (Routes.children (Routes.routes_command routes))
  = map Routes.heading listed
  /\ listed ≡ₚ routes
  /\ Routes.ascending listed
  /\ forall p, filter (fun r => Routes.path r = p) listed
               = filter (fun r => Routes.path r = p) routes.
Proof.
  intros listed. subst listed. rewrite routes_command_branches. cbn.
  split; [|split; [apply sorted_Permutation|split;
                   [apply sorted_Sorted|intros p; apply sorted_stable]]].
  rewrite map_map. apply map_ext. by intros [].
Qed.

(** X13: when no two routes share a path, the listing does not depend on the
    order in which the routes were registered. *)
Theorem listing_order_independent (routes routes' : list Routes.route) :
  routes ≡ₚ routes' ->
  NoDup (map Routes.path routes) ->
  Routes.routes_command routes = Routes.routes_command routes'.
Proof.
  intros Hperm Hnd. rewrite !routes_command_branches.
  by rewrite (sorted_unique Routes.path routes routes').
Qed.

Lemma listing_order_independent_witness :
  Routes.routes_command [Routes.feed; Routes.books]
  = Routes.routes_command [Routes.books; Routes.feed].
Proof.
  apply listing_order_independent; [apply Permutation_swap|].
  cbn. repeat constructor; rewrite ?elem_of_cons, ?elem_of_nil; intros H.
  - by destruct H as [H|[]].
  - done.
Defined.

Lemma length_lines (h : Routes.handler) :
  length (Routes.lines h) = (length (Routes.paths h) `max` 1)%nat.
Proof.
  unfold Routes.lines.
  destruct (Nat.ltb_spec 1 (length (Routes.paths h))); [|cbn; lia].
  rewrite length_map. lia.
Qed.

Lemma lines_childless (h : Routes.handler) :
  Forall (fun line => Routes.children line = []) (Routes.lines h).
Proof.
  unfold Routes.lines. destruct (1 <? _)%nat; [|by repeat constructor].
  apply Forall_forall. by intros line (path & -> & _)%list_elem_of_fmap.
Qed.

(** X14: under the branch of an HTTP route there is one line per path for a
    handler with several paths and a single line for any other handler, even
    one without a path; under any other route there is exactly one line; and
    no line has anything under it. *)
Theorem lines_of_listing (routes : list Routes.route) :
  let branches := Routes.children (Routes.routes_command routes) in
  map (fun b => length (Routes.children b)) branches
  = map Routes.lines_under (Routes.sorted Routes.path routes)
  /\ Forall (fun b => Forall (fun line => Routes.children line = [])
                             (Routes.children b))
            branches.
Proof.
  intros branches. subst branches. rewrite routes_command_branches. cbn. split.
  - rewrite map_map. apply map_ext. intros [p handlers|p h|p h]; cbn; [|done..].
    induction handlers as [|h handlers IH]; [done|].
    cbn. by rewrite length_app, length_lines, IH.
  - apply Forall_forall. intros b (r & -> & _)%list_elem_of_fmap.
    destruct r as [p handlers|p h|p h]; cbn; [|by repeat constructor..].
    induction handlers as [|h handlers IH]; [constructor|].
    cbn. apply Forall_app. split; [apply lines_childless|done].
Qed.

(** X15: the HTTP methods of a handler are written in ascending order, so
    the line of a handler does not depend on the order in which the set of
    its methods is iterated. *)
Theorem methods_order_independent (h : Routes.handler) (methods : list string) :
  NoDup (Routes.http_methods h) ->
  Routes.http_methods h ≡ₚ methods ->
  Routes.handler_info (Routes.with_methods h methods) = Routes.handler_info h
  /\ Sorted String.le (Routes.sorted (fun m => m) (Routes.http_methods h)).
Proof.
  intros Hnd Hperm. split; [|apply (sorted_Sorted (fun m => m))].
  unfold Routes.handler_info, Routes.blue_name. cbn.
  rewrite (sorted_unique (fun m => m) (Routes.http_methods h) methods); [done..|].
  by rewrite map_id.
Qed.

Lemma methods_order_independent_witness :
  Routes.handler_info
    {| Routes.name := None; Routes.handler_name := "list_books";
       Routes.is_coroutine := true; Routes.http_methods := ["POST"; "GET"];
       Routes.paths := ["/books"] |}
  = ["[blue]list_books[/blue]"; "[magenta]async[/magenta]";
     "[cyan]GET, POST[/cyan]"].
Proof.
  refine (eq_trans (eq_sym
            (proj1 (methods_order_independent
                      {| Routes.name := None; Routes.handler_name := "list_books";
                         Routes.is_coroutine := true;
                         Routes.http_methods := ["GET"; "POST"];
                         Routes.paths := ["/books"] |}
                      ["POST"; "GET"] _ (Permutation_swap _ _ _)))) eq_refl).
  cbn. repeat constructor; rewrite ?elem_of_cons, ?elem_of_nil; intros H.
  - by destruct H as [H|[]].
  - done.
Defined.

(** The listing of two routes registered out of order. *)
Example routes_listing :
  Routes.routes_command [Routes.feed; Routes.books]
  = Routes.Node ""
      [Routes.Node "[green]/books[/green] (HTTP)"
         [Routes.Node
            "[blue]list_books[/blue] [magenta]async[/magenta] [cyan]GET, POST[/cyan]"
            []];
       Routes.Node "[green]/feed[/green] (WS)"
         [Routes.Node "[blue]feed[/blue]" []]].
Proof. reflexivity. Qed.

(** ** The command with managers that stay out of the way *)

Lemma load_env_environ (o : Cli.options) (w w1 : world) (env : Env.LitestarEnv) :
  load_env o w = (Return env, w1) -> environ w1 = environ w.
Proof.
  rewrite load_env_run. destruct (obj w) as [call|env0].
  - destruct (call (environ w)); intros H; by simplify_eq.
  - intros H. by simplify_eq.
Qed.

(** X16: once the context object is loaded and the TLS helper has returned
    its paths, a command whose lifespan managers are all acquired and let
    exceptions through ends exactly as the server strategy ends: it returns
    when the server stops cleanly, raises what [uvicorn.run] raised, and
    raises [CalledProcessError] with the status of a child that failed. *)
Theorem run_command_outcome (rt : runtime) (o : Cli.options) (w w1 : world)
    (env : Env.LitestarEnv) (paths : option string * option string) :
  UVICORN_INSTALLED rt = true ->
  load_env o (with_flags o w) = (Return env, w1) ->
  ssl_outcome rt (resolve env o) = Return paths ->
  Forall (well_behaved (Env.app env)) (App._server_lifespan_managers (Env.app env)) ->
  (run_command rt o w).1
  = serve_outcome rt env (resolve env o) paths.1 paths.2
      (flag_environ o (environ w)).
Proof.
  intros H Hload Hssl Hms.
  rewrite (run_command_installed rt o w H), Hload. cbn zeta. rewrite Hssl.
  rewrite lifespan_passive by done. cbn [record environ].
  by rewrite (load_env_environ o _ _ _ Hload).
Qed.

Lemma run_command_outcome_witness :
  (run_command Sample.failing_server Cases.watching
     (Sample.world0
        (Resolved (Sample.env (Sample.app [App.Prepared Sample.quiet]))))).1
  = Raise (CalledProcessError 3
             ["python"; "-m"; "uvicorn"; "app:app"; "--reload";
              "--host=127.0.0.1"; "--port=8000"; "--workers=1";
              "--reload-dir=src"; "--reload-dir=docs"]).
Proof.
  refine (run_command_outcome Sample.failing_server Cases.watching
            (Sample.world0
               (Resolved (Sample.env (Sample.app [App.Prepared Sample.quiet]))))
            _ _ (None, None) eq_refl eq_refl eq_refl _).
  repeat constructor. exists Sample.quiet. repeat split.
Defined.

(** [StopIteration] and the generator behind [_server_lifespan]: raised by
    an [__enter__] it leaves as a [RuntimeError] and the server is not
    launched; raised by the server and let through by the managers it comes
    back as it was. *)
Example lifespan_stop_iteration :
  let stops := {| __enter__ := Some StopIteration;
                  __exit__ := fun _ => ExitReturn false |} in
  let stopping := {| UVICORN_INSTALLED := true; sys_executable := "python";
                     tracing := false;
                     validate_ssl_file_paths := fun c k => Return (c, k);
                     create_ssl_files := fun c k _ => Return (c, k);
                     uvicorn_run := fun _ => Some StopIteration;
                     child_returncode := fun _ _ => 0 |} in
  let v := resolve (Sample.env (Sample.app [])) Sample.defaults in
  let w := Sample.world0 (Resolved (Sample.env (Sample.app []))) in
  with_server_lifespan (Sample.app [App.Prepared Sample.quiet; App.Prepared stops])
    (serve Sample.server (Sample.env (Sample.app [])) v None None) w
  = (Raise (RuntimeError "generator raised StopIteration"),
     record [EvEnter 0; EvEnter 1; EvExit 0 (Some StopIteration)] w)
  /\ (with_server_lifespan (Sample.app [App.Prepared Sample.quiet])
        (serve stopping (Sample.env (Sample.app [])) v None None) w).1
     = Raise StopIteration.
Proof. split; reflexivity. Qed.
